(** * Tiered interview agent: a shallow embedding of [TieredInterviewAgent]

    The agent of [app.py] keeps three JSON documents in memory (the general
    question set, the category question set and the profile structure) and a
    position (tier index, phase, question index).  The documents are plain
    Python dictionaries read from the document store, so they are embedded
    here as dynamically typed values; Python exceptions are results of the
    operations, and the methods of the class are state transformers over the
    record [agent]. *)

From Stdlib Require Import String Ascii List ZArith Bool Arith Lia Permutation.
Import ListNotations.
Local Open Scope string_scope.
Local Open Scope list_scope.
Local Open Scope nat_scope.

(** ** Python values

    The values a document can hold.  Dictionaries keep their keys in
    insertion order, as Python's do; a list of bindings is read with the first
    binding of a key winning, and every operation below keeps at most the
    bindings it found.  Floating point numbers and the store's special types
    (timestamps, references) are left out: none of the operations of the
    agent distinguishes them from [VNone], except the truth value of a
    number. *)

Module Py.

#[local] Set Warnings "-register-all".

Inductive value : Type :=
| VNone
| VBool (b : bool)
| VInt (z : Z)
| VStr (s : string)
| VList (l : list value)
| VDict (d : list (string * value)).

Definition dict : Type := list (string * value).

(** The exceptions the embedded code can raise. *)
Inductive exn : Type :=
| AttributeError
| TypeError
| ValueError
| KeyError
| StoreError.

Inductive res (A : Type) : Type :=
| Ok (a : A)
| Raise (e : exn).
Arguments Ok {A} a.
Arguments Raise {A} e.

(** [d.get(k)], as an option. *)
Fixpoint dict_get (d : dict) (k : string) : option value :=
  match d with
  | [] => None
  | (k', v) :: r => if String.eqb k' k then Some v else dict_get r k
  end.

(** [k in d]. *)
Definition dict_mem (d : dict) (k : string) : bool :=
  match dict_get d k with Some _ => true | None => false end.

(** [d.get(k, default)]. *)
Definition dict_get_default (d : dict) (k : string) (default : value) : value :=
  match dict_get d k with Some v => v | None => default end.

(** [d[k] = v]: an existing key keeps its place, a new key goes last. *)
Fixpoint dict_set (d : dict) (k : string) (v : value) : dict :=
  match d with
  | [] => [(k, v)]
  | (k', v') :: r =>
      if String.eqb k' k then (k', v) :: r else (k', v') :: dict_set r k v
  end.

(** [d.keys()]: every key once, in the order of first insertion. *)
Fixpoint dict_keys (d : dict) : list string :=
  match d with
  | [] => []
  | (k, _) :: r => k :: filter (fun k' => negb (String.eqb k k')) (dict_keys r)
  end.

(** [len(d)]. *)
Definition dict_len (d : dict) : nat := length (dict_keys d).

Definition str_mem (k : string) (l : list string) : bool :=
  existsb (String.eqb k) l.

(** Element-wise comparison of two lists with [eq]. *)
Fixpoint list_eq_by (eq : value -> value -> bool) (xs ys : list value)
    {struct xs} : bool :=
  match xs, ys with
  | [], [] => true
  | x :: xs', y :: ys' => eq x y && list_eq_by eq xs' ys'
  | _, _ => false
  end.

(** Every key of [d], taken at its first binding and not in [seen], is
    bound in [d2] to a value that [eq] accepts. *)
Fixpoint dict_sub_by (eq : value -> value -> bool) (d2 : dict)
    (seen : list string) (d : dict) {struct d} : bool :=
  match d with
  | [] => true
  | (k, v) :: r =>
      (if str_mem k seen then true
       else match dict_get d2 k with
            | Some v' => eq v v'
            | None => false
            end)
      && dict_sub_by eq d2 (k :: seen) r
  end.

(** Python's [==] on the values above.  [True == 1] and [False == 0] hold;
    lists compare element by element; dictionaries compare as maps, whatever
    the order of their keys. *)
Fixpoint py_eq (a b : value) {struct a} : bool :=
  match a, b with
  | VNone, VNone => true
  | VBool x, VBool y => Bool.eqb x y
  | VBool x, VInt z => Z.eqb (if x then 1 else 0) z
  | VInt z, VBool x => Z.eqb z (if x then 1 else 0)
  | VInt x, VInt y => Z.eqb x y
  | VStr x, VStr y => String.eqb x y
  | VList xs, VList ys => list_eq_by py_eq xs ys
  | VDict d1, VDict d2 =>
      Nat.eqb (dict_len d1) (dict_len d2) && dict_sub_by py_eq d2 [] d1
  | _, _ => false
  end.

(** Truth value of a value ([if v:]). *)
Definition truthy (v : value) : bool :=
  match v with
  | VNone => false
  | VBool b => b
  | VInt z => negb (Z.eqb z 0)
  | VStr s => negb (String.eqb s "")
  | VList l => match l with [] => false | _ => true end
  | VDict d => match d with [] => false | _ => true end
  end.

(** [isinstance(v, dict)], [isinstance(v, list)], [isinstance(v, str)]. *)
Definition is_dict (v : value) : bool :=
  match v with VDict _ => true | _ => false end.
Definition is_list (v : value) : bool :=
  match v with VList _ => true | _ => false end.
Definition is_str (v : value) : bool :=
  match v with VStr _ => true | _ => false end.

(** [v.get(k, default)]: only dictionaries have the method. *)
Definition py_get (v : value) (k : string) (default : value) : res value :=
  match v with
  | VDict d => Ok (dict_get_default d k default)
  | _ => Raise AttributeError
  end.

(** [v[k] = x] with a string key: only dictionaries accept it. *)
Definition py_setitem (v : value) (k : string) (x : value) : res value :=
  match v with
  | VDict d => Ok (VDict (dict_set d k x))
  | _ => Raise TypeError
  end.

End Py.
Import Py.

(** ** The string functions [load_data] relies on *)

Module Str.

(** [s.startswith(p)]. *)
Definition startswith (p s : string) : bool := String.prefix p s.

(** [s.replace('tier', '')]: every occurrence of [tier], found from the
    left without overlap, is dropped. *)
Fixpoint remove_tier (s : string) : string :=
  match s with
  | EmptyString => EmptyString
  | String c1 s1 =>
      match s1 with
      | String c2 (String c3 (String c4 rest)) =>
          if (Ascii.eqb c1 "t" && Ascii.eqb c2 "i"
              && Ascii.eqb c3 "e" && Ascii.eqb c4 "r")%char
          then remove_tier rest
          else String c1 (remove_tier s1)
      | _ => String c1 (remove_tier s1)
      end
  end.

(** [s.split('.')]: the segments between the dots; never an empty list. *)
Fixpoint split_dot (s : string) : list string :=
  match s with
  | EmptyString => [EmptyString]
  | String c r =>
      if Ascii.eqb c "."%char then EmptyString :: split_dot r
      else match split_dot r with
           | [] => [String c EmptyString]
           | seg :: segs => String c seg :: segs
           end
  end.

(** White space as [int] strips it (ASCII range). *)
Definition is_space (c : ascii) : bool :=
  let n := nat_of_ascii c in
  (Nat.eqb n 32 || (Nat.leb 9 n && Nat.leb n 13) || (Nat.leb 28 n && Nat.leb n 31)).

Definition digit_of (c : ascii) : option Z :=
  let n := nat_of_ascii c in
  if (Nat.leb 48 n && Nat.leb n 57) then Some (Z.of_nat (n - 48)) else None.

Fixpoint lstrip (s : string) : string :=
  match s with
  | String c r => if is_space c then lstrip r else s
  | EmptyString => EmptyString
  end.

(** The characters of [s] without the white space at its end. *)
Fixpoint rstrip (s : string) : string :=
  match s with
  | EmptyString => EmptyString
  | String c r =>
      match rstrip r with
      | EmptyString => if is_space c then EmptyString else String c EmptyString
      | r' => String c r'
      end
  end.

(** Digits with single underscores between them, read in base ten.
    [prev] tells whether the character before was a digit. *)
Fixpoint digits (acc : Z) (prev : bool) (s : string) : option Z :=
  match s with
  | EmptyString => if prev then Some acc else None
  | String c r =>
      match digit_of c with
      | Some d => digits (10 * acc + d) true r
      | None =>
          if (Ascii.eqb c "_"%char && prev)%bool then
            match r with
            | String c' _ =>
                match digit_of c' with
                | Some _ => digits acc false r
                | None => None
                end
            | EmptyString => None
            end
          else None
      end
  end.

(** [int(s)] on an ASCII string: [None] stands for [ValueError]. *)
Definition py_int (s : string) : option Z :=
  match rstrip (lstrip s) with
  | String c r =>
      if Ascii.eqb c "-"%char then option_map Z.opp (digits 0 false r)
      else if Ascii.eqb c "+"%char then digits 0 false r
      else digits 0 false (String c r)
  | EmptyString => None
  end.

End Str.

(** ** The agent *)

Inductive phase : Type := general | category.

(** The attributes of a [TieredInterviewAgent] that the methods read and
    write; [db], [openai_key] and [cat_doc_id] only select the documents. *)
Record agent : Type := mkAgent {
  current_tier_idx : nat;
  current_phase : phase;
  current_q_idx : nat;
  tier_keys : list string;
  general_questions : dict;
  category_questions : dict;
  profile_structure : dict
}.

Definition set_tier_idx (i : nat) (a : agent) : agent :=
  mkAgent i (current_phase a) (current_q_idx a) (tier_keys a)
          (general_questions a) (category_questions a) (profile_structure a).
Definition set_phase (p : phase) (a : agent) : agent :=
  mkAgent (current_tier_idx a) p (current_q_idx a) (tier_keys a)
          (general_questions a) (category_questions a) (profile_structure a).
Definition set_q_idx (i : nat) (a : agent) : agent :=
  mkAgent (current_tier_idx a) (current_phase a) i (tier_keys a)
          (general_questions a) (category_questions a) (profile_structure a).
Definition set_general (d : dict) (a : agent) : agent :=
  mkAgent (current_tier_idx a) (current_phase a) (current_q_idx a) (tier_keys a)
          d (category_questions a) (profile_structure a).
Definition set_category (d : dict) (a : agent) : agent :=
  mkAgent (current_tier_idx a) (current_phase a) (current_q_idx a) (tier_keys a)
          (general_questions a) d (profile_structure a).
Definition set_profile (d : dict) (a : agent) : agent :=
  mkAgent (current_tier_idx a) (current_phase a) (current_q_idx a) (tier_keys a)
          (general_questions a) (category_questions a) d.

(** *** Methods as state transformers

    A method runs on the agent and gives a result or an exception together
    with the agent as the method left it: an exception does not undo the
    assignments made before it. *)

Definition M (A : Type) : Type := agent -> res A * agent.

Definition ret {A} (a : A) : M A := fun s => (Ok a, s).
Definition bind {A B} (m : M A) (f : A -> M B) : M B :=
  fun s => match m s with
           | (Ok a, s') => f a s'
           | (Raise e, s') => (Raise e, s')
           end.
Definition lift {A} (r : res A) : M A := fun s => (r, s).
Definition modify (f : agent -> agent) : M unit := fun s => (Ok tt, f s).
Definition gets {A} (f : agent -> A) : M A := fun s => (Ok (f s), s).

(** Sequencing of results that do not touch the agent. *)
Definition rbind {A B} (r : res A) (f : A -> res B) : res B :=
  match r with Ok a => f a | Raise e => Raise e end.

Declare Scope agent_scope.
Delimit Scope agent_scope with agent.
Notation "x <- m ;; k" := (bind m (fun x => k))
  (at level 100, m at next level, right associativity) : agent_scope.
Notation "m ;; k" := (bind m (fun _ => k))
  (at level 100, right associativity) : agent_scope.
Notation "'let?' x ':=' r 'in' k" := (rbind r (fun x => k))
  (at level 100, x name, r at next level, k at level 100, right associativity).

(** [get_current_tier_key]. *)
Definition get_current_tier_key (a : agent) : option string :=
  if current_tier_idx a <? length (tier_keys a)
  then nth_error (tier_keys a) (current_tier_idx a)
  else None.

(** [not tier_key] for a key that is a string or [None]. *)
Definition no_key (k : option string) : bool :=
  match k with None => true | Some s => String.eqb s "" end.

Definition is_empty {A} (l : list A) : bool :=
  match l with [] => true | _ => false end.

(** [isinstance(q, dict) and q.get('qest') == 'pending']. *)
Definition is_pending (q : value) : bool :=
  match q with
  | VDict d => py_eq (dict_get_default d "qest" VNone) (VStr "pending")
  | _ => false
  end.

(** [get_pending_questions(dataset, tier_key)]. *)
Definition get_pending_questions (a : agent) (dataset : dict)
    (tier_key : option string) : res (list value) :=
  match tier_key with
  | None => Ok []
  | Some tk =>
      if is_empty dataset || String.eqb tk "" || negb (dict_mem dataset tk)
      then Ok []
      else
        let tier := dict_get_default dataset tk (VDict []) in
        let? gated :=
          (if py_eq (VDict dataset) (VDict (general_questions a)) then
             let? tier_status := py_get tier "status" (VStr "") in
             Ok (negb (py_eq tier_status (VStr "in_process"))
                 && negb (py_eq tier_status (VStr "")))
           else Ok false) in
        if (gated : bool) then Ok []
        else
          let? questions := py_get tier "questions" (VList []) in
          match questions with
          | VList qs => Ok (filter is_pending qs)
          | _ => Ok []
          end
  end.

(** The dictionary [get_current_question] returns. *)
Record current_question : Type := mkCurrent {
  cq_question : value;
  cq_field : value;
  cq_phase : phase;
  cq_tier : string
}.

Definition dataset_of (a : agent) (p : phase) : dict :=
  match p with
  | general => general_questions a
  | category => category_questions a
  end.

(** [get_current_question]. *)
Definition get_current_question (a : agent) : res (option current_question) :=
  let tier_key := get_current_tier_key a in
  match tier_key with
  | None => Ok None
  | Some tk =>
      if no_key tier_key then Ok None
      else
        let? pending :=
          get_pending_questions a (dataset_of a (current_phase a)) tier_key in
        if negb (is_empty pending) && (current_q_idx a <? length pending) then
          match nth_error pending (current_q_idx a) with
          | Some question_data =>
              let? q := py_get question_data "question" (VStr "") in
              let? f := py_get question_data "field" (VStr "") in
              Ok (Some (mkCurrent q f (current_phase a) tk))
          | None => Ok None
          end
        else Ok None
  end.

(** [for x in v]: the elements a [for] loop visits. *)
Fixpoint chars (s : string) : list value :=
  match s with
  | EmptyString => []
  | String c r => VStr (String c EmptyString) :: chars r
  end.

Definition py_iter (v : value) : res (list value) :=
  match v with
  | VList l => Ok l
  | VDict d => Ok (map VStr (dict_keys d))
  | VStr s => Ok (chars s)
  | _ => Raise TypeError
  end.

(** The loop of [submit_answer] over the tier's questions: the first
    question whose text equals [text] gets [qest = 'answered'] and the loop
    stops.  [None] when no question matched, so that nothing was written. *)
Fixpoint mark_answered (qs : list value) (text : value)
  : res (option (list value)) :=
  match qs with
  | [] => Ok None
  | q :: r =>
      match q with
      | VDict d =>
          if py_eq (dict_get_default d "question" VNone) text
          then Ok (Some (VDict (dict_set d "qest" (VStr "answered")) :: r))
          else
            let? r' := mark_answered r text in
            Ok (option_map (cons q) r')
      | _ => Raise AttributeError
      end
  end.

(** The question list of tier [tk] of [dataset] replaced by [qs]: what the
    assignment inside the loop leaves in the dataset. *)
Definition store_questions (dataset : dict) (tk : string) (qs : list value)
  : dict :=
  match dict_get dataset tk with
  | Some (VDict tier) =>
      dict_set dataset tk (VDict (dict_set tier "questions" (VList qs)))
  | _ => dataset
  end.

Definition set_dataset (p : phase) (d : dict) (a : agent) : agent :=
  match p with
  | general => set_general d a
  | category => set_category d a
  end.

(** The body of the [try] of [update_profile_structure], from the mapping
    [current] on: [keys] are the segments before the last one, [final_key]
    the last.  Any access to an entry that is not a mapping raises
    [TypeError], which the method catches: the walk stops there and what was
    created before stays. *)
Fixpoint update_path (keys : list string) (final_key : string)
    (answer : value) (current : dict) : dict :=
  match keys with
  | [] =>
      match dict_get current final_key with
      | Some (VDict leaf) =>
          dict_set current final_key (VDict (dict_set leaf "value" answer))
      | Some _ => current
      | None => dict_set current final_key (VDict [("value", answer)])
      end
  | key :: rest =>
      match dict_get current key with
      | None =>
          dict_set current key (VDict (update_path rest final_key answer []))
      | Some (VDict child) =>
          dict_set current key
                   (VDict (update_path rest final_key answer child))
      | Some _ => current
      end
  end.

(** [update_profile_structure(field_path, answer)]. *)
Definition update_profile_structure (field_path answer : value) : M unit :=
  match field_path with
  | VStr path =>
      if negb (truthy field_path) then ret tt
      else
        let keys := Str.split_dot path in
        modify (fun a =>
          set_profile (update_path (removelast keys) (last keys "") answer
                                   (profile_structure a)) a)
  | _ => ret tt
  end.

(** [self.dataset[tier_key]['status'] = status], for a key known to be in
    the dataset. *)
Definition set_status (p : phase) (tk : string) (status : string) : M unit :=
  fun a =>
    match dict_get (dataset_of a p) tk with
    | None => (Raise KeyError, a)
    | Some tier =>
        match py_setitem tier "status" (VStr status) with
        | Ok tier' => (Ok tt, set_dataset p (dict_set (dataset_of a p) tk tier') a)
        | Raise e => (Raise e, a)
        end
    end.

(** [complete_current_tier]. *)
Definition complete_current_tier : M unit :=
  (tier_key <- gets get_current_tier_key ;;
   match tier_key with
   | Some tk =>
       if no_key tier_key then ret tt
       else
         in_general <- gets (fun a => dict_mem (general_questions a) tk) ;;
         (if in_general then set_status general tk "completed" else ret tt) ;;
         in_category <- gets (fun a => dict_mem (category_questions a) tk) ;;
         (if in_category then set_status category tk "completed" else ret tt)
   | None => ret tt
   end)%agent.

(** [advance_to_next_tier]. *)
Definition advance_to_next_tier : M unit :=
  (a <- gets (fun a => a) ;;
   if current_tier_idx a + 1 <? length (tier_keys a) then
     modify (fun a => set_q_idx 0 (set_phase general
                        (set_tier_idx (current_tier_idx a + 1) a))) ;;
     next_tier_key <- gets get_current_tier_key ;;
     match next_tier_key with
     | Some tk =>
         in_general <- gets (fun a => dict_mem (general_questions a) tk) ;;
         if negb (no_key next_tier_key) && in_general
         then set_status general tk "in_process"
         else ret tt
     | None => ret tt
     end
   else modify (fun a => set_tier_idx (length (tier_keys a)) a))%agent.

(** [advance_to_next]. *)
Definition advance_to_next : M unit :=
  (tier_key <- gets get_current_tier_key ;;
   if no_key tier_key then ret tt
   else
     ph <- gets current_phase ;;
     match ph with
     | general =>
         pending <- (fun a => lift (get_pending_questions a (general_questions a) tier_key) a) ;;
         idx <- gets current_q_idx ;;
         if negb (is_empty pending) && (idx + 1 <? length pending) then
           modify (set_q_idx (idx + 1))
         else
           modify (fun a => set_q_idx 0 (set_phase category a)) ;;
           cat_pending <- (fun a => lift (get_pending_questions a (category_questions a) tier_key) a) ;;
           if is_empty cat_pending then
             complete_current_tier ;; advance_to_next_tier
           else ret tt
     | category =>
         pending <- (fun a => lift (get_pending_questions a (category_questions a) tier_key) a) ;;
         idx <- gets current_q_idx ;;
         if negb (is_empty pending) && (idx + 1 <? length pending) then
           modify (set_q_idx (idx + 1))
         else
           complete_current_tier ;; advance_to_next_tier
     end)%agent.

(** [submit_answer(answer)]. *)
Definition submit_answer (answer : value) : M bool :=
  (tier_key <- gets get_current_tier_key ;;
   if no_key tier_key then ret false
   else
     current_q <- (fun a => lift (get_current_question a) a) ;;
     match current_q, tier_key with
     | Some cq, Some tk =>
         ph <- gets current_phase ;;
         pending <- (fun a => lift (get_pending_questions a (dataset_of a ph) tier_key) a) ;;
         idx <- gets current_q_idx ;;
         if negb (is_empty pending) && (idx <? length pending) then
           match nth_error pending idx with
           | Some question_to_update =>
               question_text <- lift (py_get question_to_update "question" (VStr "")) ;;
               tier <- gets (fun a => dict_get_default (dataset_of a ph) tk (VDict [])) ;;
               tier_questions <- lift (py_get tier "questions" (VList [])) ;;
               qs <- lift (py_iter tier_questions) ;;
               marked <- lift (mark_answered qs question_text) ;;
               match marked with
               | Some qs' =>
                   modify (fun a =>
                     set_dataset ph (store_questions (dataset_of a ph) tk qs') a)
               | None => ret tt
               end ;;
               (if truthy (cq_field cq)
                then update_profile_structure (cq_field cq) answer
                else ret tt) ;;
               advance_to_next ;;
               ret true
           | None => ret false
           end
         else ret false
     | _, _ => ret false
     end)%agent.

(** [is_complete]. *)
Definition is_complete (a : agent) : bool :=
  length (tier_keys a) <=? current_tier_idx a.

(** The loop of [pick_up_where_left_off] over [enumerate(self.tier_keys)],
    from index [idx] on; [None] when the loop ran to its end. *)
Fixpoint scan_tiers (idx : nat) (keys : list string) : M (option unit) :=
  match keys with
  | [] => ret None
  | tier_key :: rest =>
      (tier <- gets (fun a => dict_get_default (general_questions a) tier_key (VDict [])) ;;
       status <- lift (py_get tier "status" (VStr "")) ;;
       if py_eq status (VStr "completed") then scan_tiers (S idx) rest
       else
         modify (set_tier_idx idx) ;;
         (if negb (py_eq status (VStr "in_process"))
          then set_status general tier_key "in_process"
          else ret tt) ;;
         ret (Some tt))%agent
  end.

(** [pick_up_where_left_off]. *)
Definition pick_up_where_left_off : M unit :=
  (keys <- gets tier_keys ;;
   found <- scan_tiers 0 keys ;;
   match found with
   | Some _ => ret tt
   | None => modify (fun a => set_tier_idx (length (tier_keys a)) a)
   end)%agent.

(** *** Loading *)

(** What [document(...).get()] gives: a document, no document, or an
    exception of the store client. *)
Inductive fetch : Type :=
| Found (d : dict)
| Missing
| Unreachable.

(** The three documents the agent reads; the category document is the
    one [cat_doc_id] selects. *)
Record store : Type := mkStore {
  general_doc : fetch;
  category_doc : fetch;
  profile_doc : fetch
}.

Definition to_dict (f : fetch) : res dict :=
  match f with
  | Found d => Ok d
  | Missing => Ok []
  | Unreachable => Raise StoreError
  end.

(** [sorted(l, key=...)] on keys already computed: a stable insertion. *)
Fixpoint insert_by_key (k : Z) (x : string) (l : list (Z * string))
  : list (Z * string) :=
  match l with
  | [] => [(k, x)]
  | (k', y) :: r =>
      if (k <=? k')%Z then (k, x) :: l else (k', y) :: insert_by_key k x r
  end.

Definition sort_by_key (l : list (Z * string)) : list string :=
  map snd (fold_right (fun kx acc => insert_by_key (fst kx) (snd kx) acc) [] l).

(** The sort key of a tier key: [int(x.replace('tier', ''))]. *)
Definition tier_rank (x : string) : option Z := Str.py_int (Str.remove_tier x).

Fixpoint with_ranks (l : list string) : res (list (Z * string)) :=
  match l with
  | [] => Ok []
  | x :: r =>
      match tier_rank x with
      | Some k => let? r' := with_ranks r in Ok ((k, x) :: r')
      | None => Raise ValueError
      end
  end.

(** The tier keys of a general question set. *)
Definition extract_tier_keys (general_questions : dict) : res (list string) :=
  if negb (is_empty general_questions) then
    let? ranked :=
      with_ranks (filter (Str.startswith "tier") (dict_keys general_questions)) in
    Ok (sort_by_key ranked)
  else Ok [].

(** The agent as [__init__] leaves it before [load_data]. *)
Definition fresh : agent := mkAgent 0 general 0 [] [] [] [].

(** The [try] block of [load_data]: the three documents and the tier
    keys, or the first exception. *)
Definition load_documents (s : store) : res (dict * dict * dict * list string) :=
  let? g := to_dict (general_doc s) in
  let? c := to_dict (category_doc s) in
  let? p := to_dict (profile_doc s) in
  let? keys := extract_tier_keys g in
  Ok (g, c, p, keys).

(** The four attributes [load_data] assigns, in the [try] or in the
    [except]. *)
Definition loaded (s : store) : dict * dict * dict * list string :=
  match load_documents s with
  | Ok docs => docs
  | Raise _ => ([], [], [], [])
  end.

Definition with_documents (docs : dict * dict * dict * list string)
    (a : agent) : agent :=
  let '(g, c, p, keys) := docs in
  mkAgent (current_tier_idx a) (current_phase a) (current_q_idx a) keys g c p.

(** [load_data]: the [try] with its [except], then the resumption scan. *)
Definition load_data (s : store) : M unit :=
  (modify (with_documents (loaded s)) ;;
   pick_up_where_left_off)%agent.

(** [TieredInterviewAgent(db, openai_key)]: the agent, or the exception the
    constructor lets through. *)
Definition new_agent (s : store) : res agent :=
  match load_data s fresh with
  | (Ok _, a) => Ok a
  | (Raise e, _) => Raise e
  end.

(** The documents [save_to_firestore] writes. *)
Definition save_to_firestore (a : agent) : store :=
  mkStore (Found (general_questions a)) (Found (category_questions a))
          (Found (profile_structure a)).

(** ** The scenario of the specification, run on the code *)

Module Scenario.

Definition question (text field : string) : value :=
  VDict [("question", VStr text); ("field", VStr field); ("qest", VStr "pending")].

Definition general_set : dict :=
  [("tier1", VDict [("status", VStr "in_process");
                    ("questions", VList [question "What is your name?" "name";
                                         question "How old are you?" "age"])]);
   ("tier2", VDict [("status", VStr "");
                    ("questions", VList [question "Any hobby?" "hobby"])])].

Definition documents : store := mkStore (Found general_set) (Found []) (Found []).

End Scenario.

(** ** What the claims speak about *)

(** The question sequence of tier [tk] in a question set. *)
Definition questions_of (d : dict) (tk : string) : list value :=
  match dict_get d tk with
  | Some (VDict tier) =>
      match dict_get tier "questions" with
      | Some (VList qs) => qs
      | _ => []
      end
  | _ => []
  end.

(** The [status] entry of tier [tk] in a question set. *)
Definition tier_status (d : dict) (tk : string) : option value :=
  match dict_get d tk with
  | Some (VDict tier) => dict_get tier "status"
  | _ => None
  end.

Definition completed_in (d : dict) (tk : string) : Prop :=
  tier_status d tk = Some (VStr "completed").

(** The position of the agent. *)
Definition position (a : agent) : nat * phase * nat :=
  (current_tier_idx a, current_phase a, current_q_idx a).

(** The node of a profile tree reached by descending one key per
    segment. *)
Fixpoint node_at (keys : list string) (v : value) : option value :=
  match keys with
  | [] => Some v
  | k :: r =>
      match v with
      | VDict d =>
          match dict_get d k with
          | Some child => node_at r child
          | None => None
          end
      | _ => None
      end
  end.

(** Every entry that exists along the path [keys], [final_key] below the
    mapping [current] is itself a mapping. *)
Fixpoint mappings_along (keys : list string) (final_key : string)
    (current : dict) : bool :=
  match keys with
  | [] =>
      match dict_get current final_key with
      | Some (VDict _) | None => true
      | Some _ => false
      end
  | k :: r =>
      match dict_get current k with
      | None => true
      | Some (VDict child) => mappings_along r final_key child
      | Some _ => false
      end
  end.



(** [q['qest']] of a question. *)
Definition qest_of (q : value) : option value :=
  match q with
  | VDict d => dict_get d "qest"
  | _ => None
  end.

(** The states the interview page can bring an agent to: it constructs the
    agent and then only calls [submit_answer]; an exception in the callback
    leaves the agent in the session as the method left it. *)
Inductive reachable : agent -> Prop :=
| reach_new (s : store) (a : agent) :
    new_agent s = Ok a -> reachable a
| reach_submit (a : agent) (answer : value) (r : res bool) (a' : agent) :
    reachable a -> submit_answer answer a = (r, a') -> reachable a'.

(** What holds of every reachable agent: the tier keys are distinct,
    non-empty keys of the general set, and every tier before the current
    one is completed in the general set. *)
Definition ordered (a : agent) : Prop :=
  NoDup (tier_keys a)
  /\ (forall k, In k (tier_keys a) ->
               dict_mem (general_questions a) k = true /\ k <> "")
  /\ (forall i k, i < current_tier_idx a ->
                  nth_error (tier_keys a) i = Some k ->
                  completed_in (general_questions a) k).

(** A method run from an agent satisfying [P] ends, with a result or an
    exception, in an agent satisfying [Q]. *)
Definition hoare {A} (P : agent -> Prop) (m : M A)
    (Q : res A -> agent -> Prop) : Prop :=
  forall a r a', P a -> m a = (r, a') -> Q r a'.

(** ** Facts about dictionaries *)

Section DictFacts.

Lemma dict_get_set_same (d : dict) (k : string) (v : value) :
  dict_get (dict_set d k v) k = Some v.
Proof.
  induction d as [|[k' v'] r IH]; simpl.
  - now rewrite String.eqb_refl.
  - destruct (String.eqb k' k) eqn:E; simpl; rewrite E; auto.
Qed.

Lemma dict_get_set_other (d : dict) (k k' : string) (v : value) :
  k <> k' -> dict_get (dict_set d k v) k' = dict_get d k'.
Proof.
  intros Hne. induction d as [|[k0 v0] r IH]; simpl.
  - destruct (String.eqb k k') eqn:E; auto.
    apply String.eqb_eq in E. contradiction.
  - destruct (String.eqb k0 k) eqn:E; simpl.
    + apply String.eqb_eq in E. subst k0.
      destruct (String.eqb k k') eqn:E'; auto.
      apply String.eqb_eq in E'. contradiction.
    + now rewrite IH.
Qed.


Lemma dict_keys_set_present (d : dict) (k : string) (v : value) :
  dict_get d k <> None -> dict_keys (dict_set d k v) = dict_keys d.
Proof.
  induction d as [|[k' v'] r IH]; simpl; intros H; [contradiction|].
  destruct (String.eqb k' k) eqn:E; simpl; auto.
  now rewrite IH.
Qed.

Lemma dict_mem_set (d : dict) (k k' : string) (v : value) :
  dict_mem d k' = true -> dict_mem (dict_set d k v) k' = true.
Proof.
  unfold dict_mem. intros H.
  destruct (String.eqb k k') eqn:E.
  - apply String.eqb_eq in E. subst. now rewrite dict_get_set_same.
  - apply String.eqb_neq in E. now rewrite dict_get_set_other.
Qed.

Lemma dict_set_not_empty (d : dict) (k : string) (v : value) :
  is_empty (dict_set d k v) = false.
Proof.
  destruct d as [|[k' v'] r]; simpl; auto.
  now destruct (String.eqb k' k).
Qed.

Lemma dict_keys_in (d : dict) (k : string) :
  In k (dict_keys d) <-> dict_get d k <> None.
Proof.
  induction d as [|[k' v'] r IH]; simpl.
  - split; [tauto | congruence].
  - destruct (String.eqb k' k) eqn:E.
    + apply String.eqb_eq in E. split; [congruence | auto].
    + rewrite filter_In, IH, E. simpl.
      apply String.eqb_neq in E. split; [tauto | intros H; right; tauto].
Qed.

Lemma dict_keys_nodup (d : dict) : NoDup (dict_keys d).
Proof.
  induction d as [|[k v] r IH]; simpl; constructor.
  - rewrite filter_In, String.eqb_refl. simpl. intros [_ H]. discriminate.
  - now apply NoDup_filter.
Qed.

End DictFacts.

(** ** Running the methods *)

Ltac run := unfold bind, gets, lift, modify, ret in *; cbv beta in *.

(** *** Failure of [submit_answer] *)

(** C7: when there is no current tier key (none, or an empty one), or
    [get_current_question] finds no question, [submit_answer] returns
    [False], raises nothing, and the agent (both question sets, the profile
    and the position) is exactly what it was. *)
Theorem submit_answer_failure_is_noop (answer : value) (a : agent) :
  no_key (get_current_tier_key a) = true \/ get_current_question a = Ok None ->
  submit_answer answer a = (Ok false, a).
Proof.
  intros H. unfold submit_answer. run.
  destruct (no_key (get_current_tier_key a)) eqn:Hk; [reflexivity|].
  destruct H as [H|H]; [discriminate|].
  rewrite H. reflexivity.
Qed.

Lemma submit_answer_failure_is_noop_witness :
  let a := mkAgent 0 category 0 ["tier1"] Scenario.general_set [] [] in
  (no_key (get_current_tier_key a) = true \/ get_current_question a = Ok None)
  /\ submit_answer (VStr "Alice") a = (Ok false, a).
Proof.
  intros a.
  assert (H : no_key (get_current_tier_key a) = true
              \/ get_current_question a = Ok None) by (right; reflexivity).
  split; [exact H|].
  exact (submit_answer_failure_is_noop (VStr "Alice") a H).
Defined.

(** *** Rules for running methods *)

Section Rules.

Context {A B : Type}.

Lemma hoare_ret (P : agent -> Prop) (x : A) (Q : res A -> agent -> Prop) :
  (forall a, P a -> Q (Ok x) a) -> hoare P (ret x) Q.
Proof. intros H a r a' HP E. inversion E; subst. auto. Qed.

Lemma hoare_bind (P : agent -> Prop) (m : M A) (f : A -> M B)
    (Q1 : res A -> agent -> Prop) (Q : res B -> agent -> Prop) :
  hoare P m Q1 ->
  (forall x, hoare (Q1 (Ok x)) (f x) Q) ->
  (forall e a, Q1 (Raise e) a -> Q (Raise e) a) ->
  hoare P (bind m f) Q.
Proof.
  intros Hm Hf He a r a' HP E. unfold bind in E.
  destruct (m a) as [[x|e] a1] eqn:Em.
  - eapply Hf; [eapply Hm; eauto | exact E].
  - inversion E; subst. eapply He, Hm; eauto.
Qed.

Lemma hoare_gets (P : agent -> Prop) (f : agent -> A)
    (Q : res A -> agent -> Prop) :
  (forall a, P a -> Q (Ok (f a)) a) -> hoare P (gets f) Q.
Proof. intros H a r a' HP E. inversion E; subst. auto. Qed.

Lemma hoare_read (P : agent -> Prop) (f : agent -> res A)
    (Q : res A -> agent -> Prop) :
  (forall a, P a -> Q (f a) a) -> hoare P (fun a => lift (f a) a) Q.
Proof. intros H a r a' HP E. inversion E; subst. auto. Qed.

Lemma hoare_lift (P : agent -> Prop) (x : res A)
    (Q : res A -> agent -> Prop) :
  (forall a, P a -> Q x a) -> hoare P (lift x) Q.
Proof. intros H a r a' HP E. inversion E; subst. auto. Qed.

Lemma hoare_weaken (P P' : agent -> Prop) (m : M A)
    (Q Q' : res A -> agent -> Prop) :
  hoare P' m Q' ->
  (forall a, P a -> P' a) ->
  (forall r a, Q' r a -> Q r a) ->
  hoare P m Q.
Proof. intros H HP HQ a r a' Ha E. eapply HQ, H; eauto. Qed.

End Rules.

Lemma hoare_modify (P : agent -> Prop) (f : agent -> agent)
    (Q : res unit -> agent -> Prop) :
  (forall a, P a -> Q (Ok tt) (f a)) -> hoare P (modify f) Q.
Proof. intros H a r a' HP E. inversion E; subst. auto. Qed.

(** A property of the agent that a method keeps, whatever its outcome. *)
Definition keeps {A} (I : agent -> Prop) (m : M A) : Prop :=
  hoare I m (fun _ => I).

Lemma keeps_bind {A B} (I : agent -> Prop) (m : M A) (f : A -> M B) :
  keeps I m -> (forall x, keeps I (f x)) -> keeps I (bind m f).
Proof.
  intros Hm Hf. eapply hoare_bind; [exact Hm | exact Hf | auto].
Qed.

Lemma keeps_ret {A} (I : agent -> Prop) (x : A) : keeps I (ret x).
Proof. apply hoare_ret. auto. Qed.

Lemma keeps_gets {A} (I : agent -> Prop) (f : agent -> A) : keeps I (gets f).
Proof. apply hoare_gets. auto. Qed.

Lemma keeps_read {A} (I : agent -> Prop) (f : agent -> res A) :
  keeps I (fun a => lift (f a) a).
Proof. apply hoare_read. auto. Qed.

Lemma keeps_lift {A} (I : agent -> Prop) (x : res A) : keeps I (lift x).
Proof. apply hoare_lift. auto. Qed.

Lemma keeps_modify (I : agent -> Prop) (f : agent -> agent) :
  (forall a, I a -> I (f a)) -> keeps I (modify f).
Proof. intros H. apply hoare_modify. auto. Qed.

(** One step of a proof that a method keeps a property: the rule of the
    outermost construct. *)
Ltac keeps_step :=
  first [ apply keeps_ret | apply keeps_gets | apply keeps_read
        | apply keeps_lift | apply keeps_bind; [|intros ?] ].

(** *** What [set_status] does *)

Lemma set_status_cases (p : phase) (tk s : string) (a : agent) r a' :
  set_status p tk s a = (r, a') ->
  (exists e, r = Raise e /\ a' = a)
  \/ (exists tier,
        dict_get (dataset_of a p) tk = Some (VDict tier)
        /\ r = Ok tt
        /\ a' = set_dataset p
                  (dict_set (dataset_of a p) tk
                            (VDict (dict_set tier "status" (VStr s)))) a).
Proof.
  unfold set_status. intros E.
  destruct (dict_get (dataset_of a p) tk) as [tier|] eqn:Eg.
  - destruct tier; simpl in E; inversion E; subst; eauto.
  - inversion E; subst. eauto.
Qed.

Lemma dataset_of_set_dataset (p q : phase) (d : dict) (a : agent) :
  dataset_of (set_dataset p d a) q
  = match p, q with
    | general, general | category, category => d
    | _, _ => dataset_of a q
    end.
Proof. destruct p, q; reflexivity. Qed.

Section TierUpdates.

Variables (d : dict) (tk : string) (tier : dict).
Hypothesis Htier : dict_get d tk = Some (VDict tier).

Lemma questions_of_status_update (v : value) (k : string) :
  questions_of (dict_set d tk (VDict (dict_set tier "status" v))) k
  = questions_of d k.
Proof.
  unfold questions_of.
  destruct (String.eqb tk k) eqn:E.
  - apply String.eqb_eq in E. subst k.
    rewrite dict_get_set_same, Htier.
    now rewrite dict_get_set_other by discriminate.
  - apply String.eqb_neq in E. now rewrite dict_get_set_other.
Qed.

Lemma tier_status_status_update (v : value) (k : string) :
  tier_status (dict_set d tk (VDict (dict_set tier "status" v))) k
  = if String.eqb tk k then Some v else tier_status d k.
Proof.
  unfold tier_status.
  destruct (String.eqb tk k) eqn:E.
  - apply String.eqb_eq in E. subst k.
    now rewrite dict_get_set_same, dict_get_set_same.
  - apply String.eqb_neq in E. now rewrite dict_get_set_other.
Qed.

Lemma tier_status_questions_update (qs : list value) (k : string) :
  tier_status (dict_set d tk (VDict (dict_set tier "questions" (VList qs)))) k
  = tier_status d k.
Proof.
  unfold tier_status.
  destruct (String.eqb tk k) eqn:E.
  - apply String.eqb_eq in E. subst k.
    rewrite dict_get_set_same, Htier.
    now rewrite dict_get_set_other by discriminate.
  - apply String.eqb_neq in E. now rewrite dict_get_set_other.
Qed.


Lemma dict_mem_tier_update (v : value) (k : string) :
  dict_mem (dict_set d tk v) k = dict_mem d k.
Proof.
  unfold dict_mem.
  destruct (String.eqb tk k) eqn:E.
  - apply String.eqb_eq in E. subst k.
    now rewrite dict_get_set_same, Htier.
  - apply String.eqb_neq in E. now rewrite dict_get_set_other.
Qed.

End TierUpdates.

(** *** What advancing leaves alone

    Advancing the position writes tier statuses only: the tier keys, the
    profile, every question sequence and the key sets of both question sets
    stay what they were. *)

Definition same_content (a0 a : agent) : Prop :=
  tier_keys a = tier_keys a0
  /\ profile_structure a = profile_structure a0
  /\ (forall p k, questions_of (dataset_of a p) k
                  = questions_of (dataset_of a0 p) k)
  /\ (forall p k, dict_mem (dataset_of a p) k = dict_mem (dataset_of a0 p) k).

Lemma same_content_refl (a : agent) : same_content a a.
Proof. repeat split. Qed.

Lemma same_content_set_tier_idx (a0 a : agent) (i : nat) :
  same_content a0 a -> same_content a0 (set_tier_idx i a).
Proof. intros (H1 & H2 & H3 & H4). repeat split; auto. Qed.

Lemma same_content_set_phase (a0 a : agent) (p : phase) :
  same_content a0 a -> same_content a0 (set_phase p a).
Proof. intros (H1 & H2 & H3 & H4). repeat split; auto. Qed.

Lemma same_content_set_q_idx (a0 a : agent) (i : nat) :
  same_content a0 a -> same_content a0 (set_q_idx i a).
Proof. intros (H1 & H2 & H3 & H4). repeat split; auto. Qed.

Ltac position_only :=
  apply keeps_modify; intros ? ?;
  repeat first [ apply same_content_set_q_idx
               | apply same_content_set_phase
               | apply same_content_set_tier_idx ];
  assumption.

Lemma set_status_keeps_content (a0 : agent) (p : phase) (tk s : string) :
  keeps (same_content a0) (set_status p tk s).
Proof.
  intros a r a' (H1 & H2 & H3 & H4) E.
  apply set_status_cases in E.
  destruct E as [(e & -> & ->)|(tier & Hg & -> & ->)]; [repeat split; auto|].
  repeat split.
  - now destruct p.
  - now destruct p.
  - intros q k. rewrite dataset_of_set_dataset.
    destruct p, q; auto; rewrite (questions_of_status_update _ _ _ Hg); apply H3.
  - intros q k. rewrite dataset_of_set_dataset.
    destruct p, q; auto; rewrite (dict_mem_tier_update _ _ _ Hg); apply H4.
Qed.


Lemma advance_to_next_tier_keeps_content (a0 : agent) :
  keeps (same_content a0) advance_to_next_tier.
Proof.
  unfold advance_to_next_tier.
  keeps_step. keeps_step.
  destruct (current_tier_idx x + 1 <? length (tier_keys x)).
  - keeps_step.
    { position_only. }
    keeps_step. keeps_step.
    destruct x1 as [tk|]; [|keeps_step].
    keeps_step. keeps_step.
    destruct (negb (no_key (Some tk)) && x1);
      [apply set_status_keeps_content | keeps_step].
  - position_only.
Qed.


(** *** Pending questions *)

(** The status gate of the general set: the tier's status is neither
    [in_process] nor empty. *)
Definition status_blocks (tier : dict) : bool :=
  let s := dict_get_default tier "status" (VStr "") in
  negb (py_eq s (VStr "in_process")) && negb (py_eq s (VStr "")).

Lemma get_pending_absent (a : agent) (dataset : dict) (tk : string) :
  dict_get dataset tk = None ->
  get_pending_questions a dataset (Some tk) = Ok [].
Proof.
  intros H. unfold get_pending_questions, dict_mem. rewrite H. simpl.
  now rewrite orb_true_r.
Qed.

Lemma get_pending_dict (a : agent) (dataset : dict) (tk : string) (tier : dict) :
  dict_get dataset tk = Some (VDict tier) ->
  tk <> "" ->
  get_pending_questions a dataset (Some tk)
  = Ok (if py_eq (VDict dataset) (VDict (general_questions a))
           && status_blocks tier
        then []
        else filter is_pending (questions_of dataset tk)).
Proof.
  intros Hg Hne. unfold get_pending_questions, dict_mem, questions_of.
  unfold dict_get_default at 1 2. rewrite Hg.
  apply String.eqb_neq in Hne. rewrite Hne.
  destruct dataset as [|b r]; [discriminate|]. cbn [is_empty orb negb].
  unfold status_blocks.
  destruct (py_eq (VDict (b :: r)) (VDict (general_questions a))); cbn [andb rbind py_get].
  - destruct (negb _ && negb _); [reflexivity|].
    unfold dict_get_default.
    destruct (dict_get tier "questions") as [[]|]; reflexivity.
  - unfold dict_get_default.
    destruct (dict_get tier "questions") as [[]|]; reflexivity.
Qed.

Lemma get_pending_not_dict (a : agent) (dataset : dict) (tk : string) (v : value) :
  dict_get dataset tk = Some v ->
  is_dict v = false ->
  tk <> "" ->
  get_pending_questions a dataset (Some tk) = Raise AttributeError.
Proof.
  intros Hg Hv Hne. unfold get_pending_questions, dict_mem.
  unfold dict_get_default. rewrite Hg.
  apply String.eqb_neq in Hne. rewrite Hne.
  destruct dataset as [|b r]; [discriminate|]. cbn [is_empty orb negb].
  destruct v; try discriminate;
    destruct (py_eq (VDict (b :: r)) (VDict (general_questions a))); reflexivity.
Qed.

Lemma get_pending_nonempty (a : agent) (dataset : dict) (tk : option string)
    (pending : list value) :
  get_pending_questions a dataset tk = Ok pending ->
  pending <> [] ->
  exists k tier qs,
    tk = Some k /\ k <> ""
    /\ dict_get dataset k = Some (VDict tier)
    /\ dict_get tier "questions" = Some (VList qs)
    /\ pending = filter is_pending qs.
Proof.
  intros E Hne. destruct tk as [k|]; [|inversion E; congruence].
  destruct (String.eqb k "") eqn:Ek.
  { unfold get_pending_questions in E. rewrite Ek, orb_true_r in E.
    inversion E; congruence. }
  apply String.eqb_neq in Ek.
  destruct (dict_get dataset k) as [v|] eqn:Eg.
  - destruct (is_dict v) eqn:Ev.
    + destruct v; try discriminate.
      rewrite (get_pending_dict _ _ _ _ Eg Ek) in E.
      destruct (_ && _); inversion E; subst; [congruence|].
      unfold questions_of in *. rewrite Eg in *.
      destruct (dict_get d "questions") as [[]|] eqn:Eq;
        try (simpl in Hne; congruence).
      exists k, d, l. auto.
    + rewrite (get_pending_not_dict _ _ _ _ Eg Ev Ek) in E. discriminate.
  - rewrite get_pending_absent in E by assumption. inversion E; congruence.
Qed.

Lemma is_pending_dict (q : value) :
  is_pending q = true -> exists d, q = VDict d.
Proof. destruct q; try discriminate. eauto. Qed.

(** *** The steps of a successful [submit_answer] *)

(** The [question] and [field] entries [get_current_question] reports for
    a pending question. *)
Definition asked_text (q : value) : value :=
  match q with
  | VDict d => dict_get_default d "question" (VStr "")
  | _ => VStr ""
  end.

Definition asked_field (q : value) : value :=
  match q with
  | VDict d => dict_get_default d "field" (VStr "")
  | _ => VStr ""
  end.

(** The agent after the question was marked and the answer written, before
    the position advances. *)
Definition recorded (ph : phase) (tk : string) (marked : option (list value))
    (field answer : value) (a : agent) : agent :=
  let a1 := match marked with
            | Some qs' => set_dataset ph (store_questions (dataset_of a ph) tk qs') a
            | None => a
            end in
  if truthy field then snd (update_profile_structure field answer a1) else a1.

Lemma update_profile_structure_ok (field answer : value) (a : agent) :
  fst (update_profile_structure field answer a) = Ok tt.
Proof.
  unfold update_profile_structure.
  destruct field; try reflexivity.
  destruct (negb (truthy (VStr s))); reflexivity.
Qed.

Lemma submit_answer_cases (answer : value) (a : agent) r a' :
  submit_answer answer a = (r, a') ->
  (a' = a
   /\ ((r = Ok false
        /\ (no_key (get_current_tier_key a) = true
            \/ get_current_question a = Ok None))
       \/ exists e, r = Raise e))
  \/ exists tk tier qs q marked r0,
       get_current_tier_key a = Some tk /\ tk <> ""
       /\ dict_get (dataset_of a (current_phase a)) tk = Some (VDict tier)
       /\ dict_get tier "questions" = Some (VList qs)
       /\ get_pending_questions a (dataset_of a (current_phase a)) (Some tk)
          = Ok (filter is_pending qs)
       /\ nth_error (filter is_pending qs) (current_q_idx a) = Some q
       /\ get_current_question a
          = Ok (Some (mkCurrent (asked_text q) (asked_field q) (current_phase a) tk))
       /\ mark_answered qs (asked_text q) = Ok marked
       /\ advance_to_next
            (recorded (current_phase a) tk marked (asked_field q) answer a)
          = (r0, a')
       /\ r = match r0 with Ok _ => Ok true | Raise e => Raise e end.
Proof.
  unfold submit_answer. run. intros E.
  destruct (no_key (get_current_tier_key a)) eqn:Hk.
  { inversion E; subst. left. split; auto. }
  destruct (get_current_question a) as [[cq|]|e] eqn:Hq;
    try (inversion E; subst; left; split; eauto; fail).
  destruct (get_current_tier_key a) as [tk|] eqn:Ht; [|discriminate].
  simpl in Hk. apply String.eqb_neq in Hk.
  destruct (get_pending_questions a (dataset_of a (current_phase a)) (Some tk))
    as [pending|e] eqn:Hp;
    try (inversion E; subst; left; split; eauto; fail).
  assert (Hq' := Hq).
  unfold get_current_question in Hq'. rewrite Ht in Hq'.
  cbn [no_key] in Hq'. apply String.eqb_neq in Hk. rewrite Hk in Hq'.
  apply String.eqb_neq in Hk.
  rewrite Hp in Hq'. cbn [rbind] in Hq'.
  destruct (negb (is_empty pending) && (current_q_idx a <? length pending)) eqn:Hc;
    [|discriminate].
  destruct (nth_error pending (current_q_idx a)) as [q|] eqn:Hn;
    [|discriminate].
  assert (Hne : pending <> []) by (intros ->; discriminate).
  destruct (get_pending_nonempty _ _ _ _ Hp Hne)
    as (k & tier & qs & Hk' & _ & Hg & Hqs & ->).
  inversion Hk'; subst k. clear Hk'.
  assert (Hin : In q (filter is_pending qs)) by (eapply nth_error_In; eauto).
  apply filter_In in Hin. destruct Hin as [_ Hpq].
  destruct (is_pending_dict _ Hpq) as (qd & ->).
  cbn [py_get] in E.
  unfold dict_get_default at 1 in E. rewrite Hg in E. cbn [py_get] in E.
  unfold dict_get_default at 1 in E. rewrite Hqs in E. cbn [py_iter] in E.
  cbv beta in E.
  destruct (mark_answered qs (dict_get_default qd "question" (VStr ""))) as [marked|e] eqn:Hm;
    try (inversion E; subst; left; split; eauto; fail).
  assert (Hcq : cq = mkCurrent (asked_text (VDict qd)) (asked_field (VDict qd))
                               (current_phase a) tk).
  { cbn [py_get rbind] in Hq'. now inversion Hq'. }
  clear Hq'.
  subst cq. cbn [cq_field] in E.
  right. exists tk, tier, qs, (VDict qd), marked.
  unfold recorded.
  destruct marked as [qs'|]; cbn [asked_field asked_text] in *.
  - destruct (truthy (dict_get_default qd "field" (VStr ""))) eqn:Hf.
    + match type of E with context [update_profile_structure ?f ?x ?s] =>
        pose proof (update_profile_structure_ok f x s) as Hu;
        destruct (update_profile_structure f x s) as [ru a2]
      end.
      cbn [fst snd] in *. subst ru.
      destruct (advance_to_next a2) as [[[]|e] a3] eqn:Ha;
        inversion E; subst; eexists; repeat split; eauto.
    + destruct (advance_to_next _) as [[[]|e] a3] eqn:Ha;
        inversion E; subst; eexists; repeat split; eauto.
  - destruct (truthy (dict_get_default qd "field" (VStr ""))) eqn:Hf.
    + match type of E with context [update_profile_structure ?f ?x ?s] =>
        pose proof (update_profile_structure_ok f x s) as Hu;
        destruct (update_profile_structure f x s) as [ru a2]
      end.
      cbn [fst snd] in *. subst ru.
      destruct (advance_to_next a2) as [[[]|e] a3] eqn:Ha;
        inversion E; subst; eexists; repeat split; eauto.
    + destruct (advance_to_next _) as [[[]|e] a3] eqn:Ha;
        inversion E; subst; eexists; repeat split; eauto.
Qed.

(** *** Writing into the profile tree *)

Lemma mappings_along_empty (keys : list string) (final_key : string) :
  mappings_along keys final_key [] = true.
Proof. destruct keys; reflexivity. Qed.

(** Where every existing entry of the path is a mapping, the leaf gets the
    answer as its [value]. *)
Lemma update_path_writes (keys : list string) (final_key : string)
    (answer : value) :
  forall current,
    mappings_along keys final_key current = true ->
    exists leaf,
      node_at (keys ++ [final_key])
              (VDict (update_path keys final_key answer current))
      = Some (VDict leaf)
      /\ dict_get leaf "value" = Some answer.
Proof.
  induction keys as [|k r IH]; intros current H; simpl in *.
  - destruct (dict_get current final_key) as [[]|] eqn:E; try discriminate.
    + rewrite dict_get_set_same. eexists. split; [reflexivity|].
      apply dict_get_set_same.
    + rewrite dict_get_set_same. eexists. split; reflexivity.
  - destruct (dict_get current k) as [[]|] eqn:E; try discriminate;
      rewrite dict_get_set_same.
    + now apply IH.
    + apply IH, mappings_along_empty.
Qed.



Lemma split_dot_not_nil (s : string) : Str.split_dot s <> [].
Proof.
  induction s as [|c r IH]; simpl; [discriminate|].
  destruct (Ascii.eqb c "."); [discriminate|].
  destruct (Str.split_dot r); discriminate.
Qed.

Lemma split_dot_segments (s : string) :
  removelast (Str.split_dot s) ++ [last (Str.split_dot s) ""] = Str.split_dot s.
Proof. symmetry. apply app_removelast_last, split_dot_not_nil. Qed.

(** The profile after [update_profile_structure] on a non-empty path. *)
Lemma update_profile_structure_path (path : string) (answer : value) (a : agent) :
  path <> "" ->
  update_profile_structure (VStr path) answer a
  = (Ok tt,
     set_profile (update_path (removelast (Str.split_dot path))
                              (last (Str.split_dot path) "") answer
                              (profile_structure a)) a).
Proof.
  intros H. unfold update_profile_structure, truthy.
  apply String.eqb_neq in H. rewrite H. reflexivity.
Qed.

(** *** Marking a question answered *)


Lemma is_pending_answered (qd : dict) :
  is_pending (VDict (dict_set qd "qest" (VStr "answered"))) = false.
Proof.
  unfold is_pending, dict_get_default. now rewrite dict_get_set_same.
Qed.

(** Marking never makes the pending questions more. *)
Lemma mark_answered_pending (text : value) :
  forall qs qs',
    mark_answered qs text = Ok (Some qs') ->
    length (filter is_pending qs') <= length (filter is_pending qs).
Proof.
  induction qs as [|q r IH]; intros qs' E; simpl in E; [discriminate|].
  destruct q; try discriminate.
  destruct (py_eq (dict_get_default d "question" VNone) text).
  - inversion E; subst. cbn [filter]. rewrite is_pending_answered.
    destruct (is_pending (VDict d)); simpl; lia.
  - destruct (mark_answered r text) as [[m|]|e]; try discriminate.
    inversion E; subst. cbn [filter].
    specialize (IH m eq_refl).
    destruct (is_pending (VDict d)); simpl; lia.
Qed.

(** *** What a successful [submit_answer] leaves behind *)






(** ** Answers and the profile tree *)

Module Profiles.






End Profiles.






(** ** Loading and resuming *)

Lemma py_eq_str (v : value) (s : string) :
  py_eq v (VStr s) = true <-> v = VStr s.
Proof.
  destruct v; simpl; split; try discriminate; intros H.
  - apply String.eqb_eq in H. now subst.
  - inversion H. apply String.eqb_refl.
Qed.

(** The status the resumption scan reads for a tier key. *)
Definition scanned_status (g : dict) (k : string) : res value :=
  py_get (dict_get_default g k (VDict [])) "status" (VStr "").

Lemma scanned_completed (g : dict) (k : string) (st : value) :
  scanned_status g k = Ok st ->
  py_eq st (VStr "completed") = true ->
  completed_in g k.
Proof.
  unfold scanned_status, completed_in, tier_status, dict_get_default.
  intros E H. apply py_eq_str in H. subst st.
  destruct (dict_get g k) as [[]|]; try discriminate; cbn [py_get] in E.
  unfold dict_get_default in E.
  destruct (dict_get d "status"); inversion E; subst; reflexivity.
Qed.

Lemma completed_scanned (g : dict) (k : string) :
  completed_in g k -> scanned_status g k = Ok (VStr "completed").
Proof.
  unfold scanned_status, completed_in, tier_status, dict_get_default.
  destruct (dict_get g k) as [[]|]; try discriminate; cbn [py_get].
  unfold dict_get_default. now intros ->.
Qed.

(** The tier the scan stops at: the first key of [keys] whose tier is not
    completed, with the keys before it. *)
Inductive first_open (g : dict) : list string -> list string -> string -> Prop :=
| first_open_here k rest :
    ~ completed_in g k -> first_open g (k :: rest) [] k
| first_open_later k0 rest pre k :
    completed_in g k0 -> first_open g rest pre k ->
    first_open g (k0 :: rest) (k0 :: pre) k.

Lemma first_open_before (g : dict) keys pre k :
  first_open g keys pre k ->
  Forall (completed_in g) pre /\ ~ completed_in g k
  /\ exists post, keys = pre ++ k :: post.
Proof.
  induction 1 as [k rest H|k0 rest pre k H0 H (IH1 & IH2 & post & IH3)].
  - split; [constructor|]. split; [assumption|]. now exists rest.
  - split; [now constructor|]. split; [assumption|].
    exists post. simpl. congruence.
Qed.

(** The outcome of the scan when it raises nothing. *)
Lemma scan_tiers_spec (keys : list string) :
  forall idx a0 found a,
    scan_tiers idx keys a0 = (Ok found, a) ->
    match found with
    | None => a = a0 /\ Forall (completed_in (general_questions a0)) keys
    | Some _ =>
        exists pre k,
          first_open (general_questions a0) keys pre k
          /\ ((scanned_status (general_questions a0) k = Ok (VStr "in_process")
               /\ a = set_tier_idx (idx + length pre) a0)
              \/ (exists tier,
                    dict_get (general_questions a0) k = Some (VDict tier)
                    /\ scanned_status (general_questions a0) k
                       <> Ok (VStr "in_process")
                    /\ a = set_general
                             (dict_set (general_questions a0) k
                                (VDict (dict_set tier "status" (VStr "in_process"))))
                             (set_tier_idx (idx + length pre) a0)))
    end.
Proof.
  induction keys as [|k rest IH]; intros idx a0 found a E.
  - inversion E; subst. auto.
  - cbn [scan_tiers] in E. run.
    fold (scanned_status (general_questions a0) k) in E.
    destruct (scanned_status (general_questions a0) k) as [st|e] eqn:Es;
      [|discriminate].
    destruct (py_eq st (VStr "completed")) eqn:Ec.
    + pose proof (scanned_completed _ _ _ Es Ec) as Hc.
      apply IH in E. destruct found as [[]|].
      * destruct E as (pre & k' & Hf & H).
        exists (k :: pre), k'. split; [now constructor|].
        cbn [length]. now replace (idx + S (length pre)) with (S idx + length pre) by lia.
      * destruct E as [-> H]. auto.
    + assert (Hn : ~ completed_in (general_questions a0) k).
      { intros Hc. apply completed_scanned in Hc. rewrite Hc in Es.
        inversion Es; subst. discriminate. }
      destruct (py_eq st (VStr "in_process")) eqn:Ep; cbn [negb] in E.
      * inversion E; subst. exists [], k. split; [now constructor|].
        left. apply py_eq_str in Ep. subst. cbn [length].
        now rewrite Nat.add_0_r.
      * destruct (set_status general k "in_process" (set_tier_idx idx a0))
          as [[[]|e] a1] eqn:Est; [|discriminate].
        inversion E; subst. clear E.
        apply set_status_cases in Est.
        destruct Est as [(e & He & _)|(tier & Hg & _ & ->)]; [discriminate|].
        exists [], k. split; [now constructor|].
        right. exists tier. cbn [length]. rewrite Nat.add_0_r.
        repeat split; auto.
        intros H. rewrite H in Es. inversion Es; subst. discriminate.
Qed.

(** The agent the constructor returns, in terms of the documents as
    loaded: the scan ran to the end over completed tiers, or it stopped at
    the first tier that is not completed and made it [in_process]. *)
Lemma new_agent_spec (s : store) (a : agent) :
  new_agent s = Ok a ->
  exists g c p keys,
    loaded s = (g, c, p, keys)
    /\ current_phase a = general /\ current_q_idx a = 0
    /\ tier_keys a = keys
    /\ category_questions a = c /\ profile_structure a = p
    /\ ((general_questions a = g
         /\ current_tier_idx a = length keys
         /\ Forall (completed_in g) keys)
        \/ exists pre k,
             first_open g keys pre k
             /\ current_tier_idx a = length pre
             /\ ((scanned_status g k = Ok (VStr "in_process")
                  /\ general_questions a = g)
                 \/ exists tier,
                      dict_get g k = Some (VDict tier)
                      /\ scanned_status g k <> Ok (VStr "in_process")
                      /\ general_questions a
                         = dict_set g k
                             (VDict (dict_set tier "status" (VStr "in_process"))))).
Proof.
  unfold new_agent, load_data, pick_up_where_left_off. run.
  destruct (loaded s) as [[[g c] p] keys] eqn:El.
  cbn [with_documents fresh tier_keys current_tier_idx current_phase current_q_idx].
  destruct (scan_tiers 0 keys (mkAgent 0 general 0 keys g c p))
    as [[found|e] a1] eqn:Es; [|discriminate].
  apply scan_tiers_spec in Es.
  intros E. exists g, c, p, keys. split; [reflexivity|].
  destruct found as [[]|].
  - inversion E; subst a1. clear E.
    destruct Es as (pre & k & Hf & [[Hs ->]|(tier & Hg & Hs & ->)]);
      cbn in *; repeat split; right; exists pre, k; repeat split; auto.
    right. exists tier. auto.
  - destruct Es as [-> Hall]. inversion E; subst a. clear E.
    cbn in *. repeat split. left. auto.
Qed.

Lemma loaded_keys (s : store) g c p keys :
  loaded s = (g, c, p, keys) -> extract_tier_keys g = Ok keys.
Proof.
  unfold loaded, load_documents.
  destruct (to_dict (general_doc s)) as [g0|]; cbn [rbind];
    [|intros E; now inversion E].
  destruct (to_dict (category_doc s)) as [c0|]; cbn [rbind];
    [|intros E; now inversion E].
  destruct (to_dict (profile_doc s)) as [p0|]; cbn [rbind];
    [|intros E; now inversion E].
  destruct (extract_tier_keys g0) as [k0|] eqn:Ek; cbn [rbind];
    intros E; inversion E; subst; auto.
Qed.

(** The general question set as [load_data] assigns it. *)
Definition loaded_general (s : store) : dict :=
  let '(g, _, _, _) := loaded s in g.

(** C8: when the general question set is empty after loading (the document
    is empty or absent, or the load failed and every structure fell back to
    empty), the constructor returns an agent with no tier keys, whose tier
    index is zero, which is the number of tiers; [is_complete] is true at
    once and there is no question to ask. *)
Theorem empty_general_set_is_complete (s : store) :
  loaded_general s = [] ->
  exists a,
    new_agent s = Ok a
    /\ tier_keys a = []
    /\ current_tier_idx a = 0
    /\ current_tier_idx a = length (tier_keys a)
    /\ is_complete a = true
    /\ get_current_question a = Ok None.
Proof.
  unfold loaded_general. intros H.
  destruct (loaded s) as [[[g c] p] keys] eqn:El. subst g.
  apply loaded_keys in El as Hk. inversion Hk; subst keys.
  unfold new_agent, load_data, pick_up_where_left_off. run. rewrite El.
  cbn. eexists. repeat split.
Qed.

Lemma empty_general_set_is_complete_witness :
  exists a,
    new_agent (mkStore Missing (Found Scenario.general_set) Unreachable) = Ok a
    /\ tier_keys a = []
    /\ current_tier_idx a = 0
    /\ current_tier_idx a = length (tier_keys a)
    /\ is_complete a = true
    /\ get_current_question a = Ok None.
Proof.
  apply (empty_general_set_is_complete
           (mkStore Missing (Found Scenario.general_set) Unreachable)).
  reflexivity.
Defined.

(** *** Resuming twice *)

Lemma scan_tiers_all_completed (keys : list string) :
  forall idx a0,
    Forall (completed_in (general_questions a0)) keys ->
    scan_tiers idx keys a0 = (Ok None, a0).
Proof.
  induction keys as [|k rest IH]; intros idx a0 H; [reflexivity|].
  inversion H; subst. cbn [scan_tiers]. run.
  fold (scanned_status (general_questions a0) k).
  rewrite (completed_scanned _ _ H2). cbn. now apply IH.
Qed.

Lemma scan_tiers_in_process (g : dict) keys pre k :
  first_open g keys pre k ->
  scanned_status g k = Ok (VStr "in_process") ->
  forall idx a0,
    general_questions a0 = g ->
    scan_tiers idx keys a0 = (Ok (Some tt), set_tier_idx (idx + length pre) a0).
Proof.
  induction 1 as [k rest H|k0 rest pre k H0 H IH]; intros Hs idx a0 Hg;
    cbn [scan_tiers]; run; rewrite Hg.
  - fold (scanned_status g k). rewrite Hs. cbn. now rewrite Nat.add_0_r.
  - fold (scanned_status g k0). rewrite (completed_scanned _ _ H0). cbn.
    rewrite (IH Hs (S idx) a0 Hg). cbn [length].
    now replace (idx + S (length pre)) with (S idx + length pre) by lia.
Qed.

Lemma first_open_in_process (g : dict) keys pre k (tier : dict) :
  first_open g keys pre k ->
  dict_get g k = Some (VDict tier) ->
  first_open (dict_set g k (VDict (dict_set tier "status" (VStr "in_process"))))
             keys pre k.
Proof.
  intros H Hg. pose proof (first_open_before _ _ _ _ H) as (_ & Hn & _).
  induction H as [k rest H|k0 rest pre k H0 H IH].
  - constructor. unfold completed_in.
    rewrite tier_status_status_update, String.eqb_refl. discriminate.
  - constructor; [|now apply IH].
    unfold completed_in. rewrite tier_status_status_update.
    destruct (String.eqb k k0) eqn:E; [|exact H0].
    apply String.eqb_eq in E. subst. contradiction.
Qed.

Lemma extract_tier_keys_update (g : dict) (k : string) (v : value) :
  dict_get g k <> None ->
  extract_tier_keys (dict_set g k v) = extract_tier_keys g.
Proof.
  intros H. unfold extract_tier_keys.
  rewrite dict_set_not_empty, dict_keys_set_present by assumption.
  destruct g; [contradiction | reflexivity].
Qed.

Lemma loaded_saved (a : agent) (keys : list string) :
  extract_tier_keys (general_questions a) = Ok keys ->
  loaded (save_to_firestore a)
  = (general_questions a, category_questions a, profile_structure a, keys).
Proof.
  intros H. unfold loaded, load_documents, save_to_firestore. cbn.
  now rewrite H.
Qed.

Lemma new_agent_run (s : store) g c p keys :
  loaded s = (g, c, p, keys) ->
  new_agent s
  = match scan_tiers 0 keys (mkAgent 0 general 0 keys g c p) with
    | (Ok (Some _), a) => Ok a
    | (Ok None, a) => Ok (set_tier_idx (length (tier_keys a)) a)
    | (Raise e, _) => Raise e
    end.
Proof.
  intros El. unfold new_agent, load_data, pick_up_where_left_off. run.
  rewrite El. cbn [with_documents fresh tier_keys current_tier_idx
                   current_phase current_q_idx].
  destruct (scan_tiers 0 keys _) as [[[[]|]|e] a1]; reflexivity.
Qed.

Lemma new_agent_saved (a : agent) (keys : list string) :
  extract_tier_keys (general_questions a) = Ok keys ->
  new_agent (save_to_firestore a)
  = match scan_tiers 0 keys
            (mkAgent 0 general 0 keys (general_questions a)
                     (category_questions a) (profile_structure a)) with
    | (Ok (Some _), a) => Ok a
    | (Ok None, a) => Ok (set_tier_idx (length (tier_keys a)) a)
    | (Raise e, _) => Raise e
    end.
Proof. intros H. apply new_agent_run, loaded_saved, H. Qed.

(** C9: the agent a constructor returns has phase [general] and question
    index 0; constructing again from the same documents gives the same
    position, and so does constructing from the documents as the first
    agent holds them, with the [in_process] status its scan wrote: that
    agent is the first one again. *)
Theorem resumption_is_idempotent (s : store) (a : agent) :
  new_agent s = Ok a ->
  current_phase a = general
  /\ current_q_idx a = 0
  /\ (forall a2, new_agent s = Ok a2 -> position a2 = position a)
  /\ new_agent (save_to_firestore a) = Ok a.
Proof.
  intros E.
  destruct (new_agent_spec _ _ E)
    as (g & c & p & keys & El & Hph & Hq & Hk & Hc & Hp & H).
  split; [exact Hph|]. split; [exact Hq|].
  split; [intros a2 E2; congruence|].
  apply loaded_keys in El as Hkeys.
  destruct a as [ti ph qi tks ga ca pa]. cbn in *. subst.
  destruct H as [(-> & -> & Hall)|(pre & k & Hf & -> & [[Hs ->]|(tier & Hg & Hs & ->)])].
  - rewrite (new_agent_saved _ keys) by exact Hkeys. cbn.
    now rewrite scan_tiers_all_completed.
  - rewrite (new_agent_saved _ keys) by exact Hkeys. cbn.
    now rewrite (scan_tiers_in_process _ _ _ _ Hf Hs).
  - assert (Hkeys' : extract_tier_keys
                       (dict_set g k (VDict (dict_set tier "status" (VStr "in_process"))))
                     = Ok keys)
      by (rewrite extract_tier_keys_update; [assumption | congruence]).
    rewrite (new_agent_saved _ keys) by exact Hkeys'. cbn.
    rewrite (scan_tiers_in_process _ _ _ _ (first_open_in_process _ _ _ _ _ Hf Hg));
      [reflexivity | | reflexivity].
    unfold scanned_status, dict_get_default. rewrite dict_get_set_same.
    cbn [py_get]. unfold dict_get_default. now rewrite dict_get_set_same.
Qed.

Lemma resumption_is_idempotent_witness :
  exists a,
    new_agent Scenario.documents = Ok a
    /\ current_phase a = general
    /\ current_q_idx a = 0
    /\ (forall a2, new_agent Scenario.documents = Ok a2 -> position a2 = position a)
    /\ new_agent (save_to_firestore a) = Ok a.
Proof.
  eexists. split; [reflexivity|].
  apply (resumption_is_idempotent Scenario.documents). reflexivity.
Defined.

(** ** Equality of values *)

Section ValueInduction.

Variable P : value -> Prop.
Hypothesis HNone : P VNone.
Hypothesis HBool : forall b, P (VBool b).
Hypothesis HInt : forall z, P (VInt z).
Hypothesis HStr : forall s, P (VStr s).
Hypothesis HList : forall l, Forall P l -> P (VList l).
Hypothesis HDict : forall d, Forall (fun kv => P (snd kv)) d -> P (VDict d).

Fixpoint value_rect' (v : value) : P v :=
  match v with
  | VNone => HNone
  | VBool b => HBool b
  | VInt z => HInt z
  | VStr s => HStr s
  | VList l =>
      HList l ((fix all (l : list value) : Forall P l :=
                  match l with
                  | [] => Forall_nil P
                  | x :: r => Forall_cons x (value_rect' x) (all r)
                  end) l)
  | VDict d =>
      HDict d ((fix all (d : list (string * value))
                  : Forall (fun kv => P (snd kv)) d :=
                  match d with
                  | [] => Forall_nil _
                  | kv :: r =>
                      Forall_cons (P := fun kv => P (snd kv)) kv
                                  (value_rect' (snd kv)) (all r)
                  end) d)
  end.

End ValueInduction.

Lemma str_mem_in (k : string) (l : list string) :
  str_mem k l = true <-> In k l.
Proof.
  unfold str_mem. rewrite existsb_exists. split.
  - intros (x & Hx & E). apply String.eqb_eq in E. now subst.
  - intros H. exists k. split; [exact H | apply String.eqb_refl].
Qed.

(** A dictionary is contained in itself: each binding that is the first
    of its key is found again. *)
Lemma dict_sub_by_self (eq : value -> value -> bool) (d : dict) :
  Forall (fun kv => eq (snd kv) (snd kv) = true) d ->
  dict_sub_by eq d [] d = true.
Proof.
  intros Hall.
  enough (H : forall pre suf seen,
             d = pre ++ suf ->
             (forall k, In k (map fst pre) -> In k seen) ->
             (forall k, In k seen -> In k (map fst pre)) ->
             dict_sub_by eq d seen suf = true)
    by (apply (H [] d []); simpl; tauto).
  intros pre suf. revert pre.
  induction suf as [|[k v] r IH]; intros pre seen Hd Hin Hout; [reflexivity|].
  cbn [dict_sub_by]. apply andb_true_iff. split.
  - destruct (str_mem k seen) eqn:Em; [reflexivity|].
    assert (Hk : ~ In k (map fst pre)).
    { intros H. apply Hin, str_mem_in in H. congruence. }
    assert (Hg : dict_get d k = Some v).
    { subst d. clear - Hk. induction pre as [|[k' v'] pre IH]; simpl.
      - now rewrite String.eqb_refl.
      - simpl in Hk. destruct (String.eqb k' k) eqn:E.
        + apply String.eqb_eq in E. tauto.
        + apply IH. tauto. }
    rewrite Hg.
    rewrite Forall_forall in Hall. apply (Hall (k, v)).
    subst d. apply in_or_app. right. now left.
  - apply (IH (pre ++ [(k, v)])).
    + now rewrite <- app_assoc.
    + intros k'. rewrite map_app, in_app_iff. simpl.
      intros [H|[H|[]]]; [right; auto | left; auto].
    + intros k'. rewrite map_app, in_app_iff. simpl.
      intros [H|H]; [right; left; auto | left; auto].
Qed.

Lemma list_eq_by_self (eq : value -> value -> bool) (l : list value) :
  Forall (fun v => eq v v = true) l -> list_eq_by eq l l = true.
Proof.
  induction 1 as [|x r Hx _ IH]; simpl; [reflexivity|].
  now rewrite Hx, IH.
Qed.

(** [v == v] holds of every value. *)
Lemma py_eq_refl (v : value) : py_eq v v = true.
Proof.
  induction v using value_rect'; simpl.
  - reflexivity.
  - apply Bool.eqb_reflx.
  - apply Z.eqb_refl.
  - apply String.eqb_refl.
  - now apply list_eq_by_self.
  - rewrite Nat.eqb_refl. simpl. now apply dict_sub_by_self.
Qed.

(** ** Pending questions of the two sets *)

(** For the general set: the pending questions of the tier in their
    order, and none when the status gate blocks. *)
Lemma pending_of_general_set (a : agent) (tk : string) (tier : dict) :
  dict_get (general_questions a) tk = Some (VDict tier) ->
  tk <> "" ->
  get_pending_questions a (general_questions a) (Some tk)
  = Ok (if status_blocks tier then []
        else filter is_pending (questions_of (general_questions a) tk)).
Proof.
  intros Hg Hne. rewrite (get_pending_dict _ _ _ _ Hg Hne).
  now rewrite py_eq_refl.
Qed.

(** For a set that does not compare equal to the general set: the pending
    questions of the tier in their order, whatever the status. *)
Lemma pending_of_other_set (a : agent) (d : dict) (tk : string) (tier : dict) :
  py_eq (VDict d) (VDict (general_questions a)) = false ->
  dict_get d tk = Some (VDict tier) ->
  tk <> "" ->
  get_pending_questions a d (Some tk)
  = Ok (filter is_pending (questions_of d tk)).
Proof.
  intros Hd Hg Hne. rewrite (get_pending_dict _ _ _ _ Hg Hne).
  now rewrite Hd.
Qed.

Module Gate.

(** A tier marked completed that still holds a pending question. *)
Definition tiers : dict :=
  [("tier1", VDict [("status", VStr "completed");
                    ("questions",
                     VList [Scenario.question "Favourite genre?" "taste.genre"])])].

(** The general and the category document have the same content. *)
Definition documents : store := mkStore (Found tiers) (Found tiers) (Found []).

Definition loaded_agent : agent := mkAgent 1 general 0 ["tier1"] tiers tiers [].

End Gate.

(** C3, on the code: with a category set whose content equals the general
    set's, [get_pending_questions] on the category set applies the status
    gate too; the completed tier has a pending question in the category set
    and the method returns none. *)
Theorem category_set_equal_to_general_is_gated :
  new_agent Gate.documents = Ok Gate.loaded_agent
  /\ filter is_pending
            (questions_of (category_questions Gate.loaded_agent) "tier1")
     = [Scenario.question "Favourite genre?" "taste.genre"]
  /\ get_pending_questions Gate.loaded_agent
                           (category_questions Gate.loaded_agent) (Some "tier1")
     = Ok [].
Proof. repeat split. Qed.

(** ** The scenario *)

(** C1, on the code: the freshly loaded agent is at (tier1, general, 0);
    [submit_answer("Alice")] writes [name] and answers the first question,
    and then already completes tier1 and moves to (tier2, general, 0) with
    the question for [age] still pending: the pending list was filtered
    again after the mark, so index 1 is past its end.  The next answer,
    ["30"], is written to [hobby]. *)
Theorem scenario_skips_second_question :
  exists a0 a1 a2,
    new_agent Scenario.documents = Ok a0
    /\ position a0 = (0, general, 0)
    /\ submit_answer (VStr "Alice") a0 = (Ok true, a1)
    /\ node_at ["name"; "value"] (VDict (profile_structure a1)) = Some (VStr "Alice")
    /\ map qest_of (questions_of (general_questions a1) "tier1")
       = [Some (VStr "answered"); Some (VStr "pending")]
    /\ position a1 = (1, general, 0)
    /\ tier_status (general_questions a1) "tier1" = Some (VStr "completed")
    /\ tier_status (general_questions a1) "tier2" = Some (VStr "in_process")
    /\ submit_answer (VStr "30") a1 = (Ok true, a2)
    /\ node_at ["age"] (VDict (profile_structure a2)) = None
    /\ node_at ["hobby"; "value"] (VDict (profile_structure a2)) = Some (VStr "30")
    /\ is_complete a2 = true.
Proof.
  do 3 eexists.
  split; [reflexivity|]. split; [reflexivity|].
  split; [reflexivity|]. repeat split.
Qed.

(** ** Completed tiers *)

Module OutOfOrder.

(** Tier 2 is completed in the stored general set, tier 1 is not. *)
Definition general_set : dict :=
  [("tier1", VDict [("status", VStr "");
                    ("questions", VList [Scenario.question "What is your name?" "name"])]);
   ("tier2", VDict [("status", VStr "completed");
                    ("questions", VList [Scenario.question "Any hobby?" "hobby"])])].

Definition documents : store := mkStore (Found general_set) (Found []) (Found []).

End OutOfOrder.

(** C4, on the code: the agent loaded from a general set in which tier2 is
    completed and tier1 is not resumes at tier1; after the answer to tier1's
    question, [advance_to_next_tier] sets tier2 to [in_process] although it
    was completed, and its question is asked again. *)
Theorem completed_next_tier_is_reopened :
  exists a0 a1,
    new_agent OutOfOrder.documents = Ok a0
    /\ position a0 = (0, general, 0)
    /\ tier_status (general_questions a0) "tier2" = Some (VStr "completed")
    /\ submit_answer (VStr "Alice") a0 = (Ok true, a1)
    /\ tier_status (general_questions a1) "tier2" = Some (VStr "in_process")
    /\ position a1 = (1, general, 0)
    /\ get_current_question a1
       = Ok (Some (mkCurrent (VStr "Any hobby?") (VStr "hobby") general "tier2")).
Proof.
  do 2 eexists.
  split; [reflexivity|]. split; [reflexivity|]. split; [reflexivity|].
  split; [reflexivity|]. repeat split.
Qed.

(** ** Completing a tier and moving to the next *)

(** Statuses only move to [completed], and nothing else changes. *)
Definition completes_only (a0 a : agent) : Prop :=
  position a = position a0
  /\ same_content a0 a
  /\ forall p k,
       tier_status (dataset_of a p) k = tier_status (dataset_of a0 p) k
       \/ tier_status (dataset_of a p) k = Some (VStr "completed").

Lemma completes_only_refl (a : agent) : completes_only a a.
Proof. split; [reflexivity|]. split; [apply same_content_refl | auto]. Qed.

Lemma set_status_completed_only (a0 : agent) (p : phase) (tk : string) :
  keeps (completes_only a0) (set_status p tk "completed").
Proof.
  intros a r a' (H1 & H2 & H3) E.
  pose proof (set_status_keeps_content a0 p tk "completed" a r a' H2 E) as Hc.
  apply set_status_cases in E.
  destruct E as [(e & -> & ->)|(tier & Hg & -> & ->)];
    [split; [exact H1|]; split; [exact Hc | exact H3]|].
  split; [destruct p; exact H1|]. split; [exact Hc|].
  intros q k. rewrite dataset_of_set_dataset.
  destruct p, q; auto; rewrite tier_status_status_update;
    destruct (String.eqb tk k); auto.
Qed.

Lemma complete_current_tier_completes_only (a0 : agent) :
  keeps (completes_only a0) complete_current_tier.
Proof.
  unfold complete_current_tier.
  keeps_step. keeps_step.
  destruct x as [tk|]; [|keeps_step].
  destruct (no_key (Some tk)); [keeps_step|].
  keeps_step. keeps_step.
  keeps_step.
  { destruct x; [apply set_status_completed_only | keeps_step]. }
  keeps_step. keeps_step.
  destruct x1; [apply set_status_completed_only | keeps_step].
Qed.

(** When [complete_current_tier] returns, the current tier is completed in
    each set that has it. *)
Lemma complete_current_tier_ok (a a' : agent) (tk : string) :
  complete_current_tier a = (Ok tt, a') ->
  get_current_tier_key a = Some tk ->
  tk <> "" ->
  (dict_mem (general_questions a) tk = true ->
   completed_in (general_questions a') tk)
  /\ (dict_mem (category_questions a) tk = true ->
      completed_in (category_questions a') tk).
Proof.
  intros E Ht Hne. unfold complete_current_tier in E. run.
  rewrite Ht in E. cbn [no_key] in E.
  apply String.eqb_neq in Hne. rewrite Hne in E.
  destruct (dict_mem (general_questions a) tk) eqn:Mg.
  - destruct (set_status general tk "completed" a) as [[[]|e] a1] eqn:E1;
      [|discriminate].
    apply set_status_cases in E1.
    destruct E1 as [(e & He & _)|(tier & Hg & _ & ->)]; [discriminate|].
    cbn [category_questions set_dataset set_general] in E.
    destruct (dict_mem (category_questions a) tk) eqn:Mc.
    + apply set_status_cases in E.
      destruct E as [(e & He & _)|(tier' & Hg' & _ & ->)]; [discriminate|].
      cbn in *. unfold completed_in.
      split; intros _; rewrite tier_status_status_update;
        now rewrite String.eqb_refl.
    + inversion E; subst. cbn. unfold completed_in.
      split; [|discriminate]. intros _.
      rewrite tier_status_status_update. now rewrite String.eqb_refl.
  - destruct (dict_mem (category_questions a) tk) eqn:Mc.
    + apply set_status_cases in E.
      destruct E as [(e & He & _)|(tier' & Hg' & _ & ->)]; [discriminate|].
      cbn in *. unfold completed_in.
      split; [discriminate|]. intros _.
      rewrite tier_status_status_update. now rewrite String.eqb_refl.
    + inversion E; subst. split; discriminate.
Qed.

(** What [advance_to_next_tier] does. *)
Lemma advance_to_next_tier_cases (a : agent) r a' :
  advance_to_next_tier a = (r, a') ->
  (current_tier_idx a + 1 < length (tier_keys a)
   /\ position a' = (current_tier_idx a + 1, general, 0)
   /\ category_questions a' = category_questions a
   /\ exists nk,
        nth_error (tier_keys a) (current_tier_idx a + 1) = Some nk
        /\ forall k, k <> nk ->
                     tier_status (general_questions a') k
                     = tier_status (general_questions a) k)
  \/ (length (tier_keys a) <= current_tier_idx a + 1
      /\ a' = set_tier_idx (length (tier_keys a)) a
      /\ r = Ok tt).
Proof.
  unfold advance_to_next_tier. run. intros E.
  destruct (current_tier_idx a + 1 <? length (tier_keys a)) eqn:El.
  - apply Nat.ltb_lt in El. left. split; [exact El|].
    unfold get_current_tier_key in E.
    cbn [current_tier_idx tier_keys set_q_idx set_phase set_tier_idx] in E.
    apply Nat.ltb_lt in El as El'. rewrite El' in E.
    destruct (nth_error (tier_keys a) (current_tier_idx a + 1)) as [nk|] eqn:En.
    + cbn [general_questions set_q_idx set_phase set_tier_idx] in E.
      destruct (negb (no_key (Some nk)) && dict_mem (general_questions a) nk).
      * apply set_status_cases in E.
        destruct E as [(e & -> & ->)|(tier & Hg & -> & ->)].
        -- repeat split. exists nk. auto.
        -- repeat split. exists nk. split; [reflexivity|].
           intros k Hk. cbn. rewrite tier_status_status_update.
           destruct (String.eqb nk k) eqn:Ek; [|reflexivity].
           apply String.eqb_eq in Ek. congruence.
      * inversion E; subst. repeat split. exists nk. auto.
    + apply nth_error_None in En. lia.
  - apply Nat.ltb_ge in El. right. inversion E; subst. auto.
Qed.

(** ** Tiers are completed in order *)

Lemma current_tier_key_nth (a : agent) (tk : string) :
  get_current_tier_key a = Some tk <->
  nth_error (tier_keys a) (current_tier_idx a) = Some tk.
Proof.
  unfold get_current_tier_key.
  destruct (current_tier_idx a <? length (tier_keys a)) eqn:E; [tauto|].
  apply Nat.ltb_ge, nth_error_None in E. rewrite E. tauto.
Qed.

Lemma ordered_position_only (a : agent) (f : agent -> agent) :
  (forall x, tier_keys (f x) = tier_keys x) ->
  (forall x, general_questions (f x) = general_questions x) ->
  (forall x, current_tier_idx (f x) = current_tier_idx x) ->
  ordered a -> ordered (f a).
Proof.
  intros Hk Hg Hi (H1 & H2 & H3). unfold ordered.
  rewrite Hk, Hg, Hi. auto.
Qed.

Lemma ordered_completes_only (a0 a : agent) :
  ordered a0 -> completes_only a0 a -> ordered a.
Proof.
  intros (H1 & H2 & H3) (Hp & (Hk & _ & _ & Hm) & Hs).
  specialize (Hm general). specialize (Hs general). cbn [dataset_of] in Hm, Hs.
  unfold position in Hp. inversion Hp as [[Hi Hph Hq]].
  unfold ordered. rewrite Hk, Hi. split; [exact H1|]. split.
  - intros k Hin. rewrite Hm. auto.
  - intros i k Hlt Hn. specialize (H3 i k Hlt Hn).
    unfold completed_in in *.
    destruct (Hs k) as [E|E]; congruence.
Qed.

Lemma ordered_next_tier (a : agent) r a' :
  ordered a ->
  (forall tk, get_current_tier_key a = Some tk ->
              completed_in (general_questions a) tk) ->
  advance_to_next_tier a = (r, a') ->
  ordered a'.
Proof.
  intros (H1 & H2 & H3) Hcur E.
  pose proof (advance_to_next_tier_keeps_content a a r a'
                (same_content_refl a) E) as (Hk & _ & _ & Hm).
  specialize (Hm general). cbn [dataset_of] in Hm.
  apply advance_to_next_tier_cases in E.
  destruct E as [(Hlt & Hp & _ & nk & Hn & Hs)|(Hle & -> & _)].
  - unfold position in Hp. inversion Hp as [[Hi Hph Hq]].
    unfold ordered. rewrite Hk, Hi. split; [exact H1|]. split.
    + intros k Hin. rewrite Hm. auto.
    + intros i k Hi' Hnk.
      assert (Hne : k <> nk).
      { intros ->. rewrite <- Hn in Hnk.
        apply (proj1 (NoDup_nth_error _) H1) in Hnk; [lia|].
        apply nth_error_Some. congruence. }
      unfold completed_in. rewrite (Hs k Hne).
      destruct (Nat.eq_dec i (current_tier_idx a)) as [->|Hd].
      * apply Hcur, current_tier_key_nth, Hnk.
      * apply (H3 i k); [lia | exact Hnk].
  - unfold ordered. cbn. split; [exact H1|]. split; [exact H2|].
    intros i k Hi Hnk.
    destruct (Nat.eq_dec i (current_tier_idx a)) as [->|Hd].
    + apply Hcur, current_tier_key_nth, Hnk.
    + apply (H3 i k); [lia | exact Hnk].
Qed.

Lemma complete_then_next_ordered :
  keeps ordered (bind complete_current_tier (fun _ => advance_to_next_tier)).
Proof.
  apply hoare_bind with
    (Q1 := fun r a =>
             ordered a
             /\ (r = Ok tt ->
                 forall tk, get_current_tier_key a = Some tk ->
                            completed_in (general_questions a) tk)).
  - intros a r a' Ho E.
    pose proof (complete_current_tier_completes_only a a r a'
                  (completes_only_refl a) E) as Hc.
    split; [eapply ordered_completes_only; eauto|].
    intros -> tk Ht.
    destruct Hc as (Hp & (Hk & _) & _).
    unfold position in Hp. inversion Hp as [[Hi Hph Hq]].
    assert (Ht0 : get_current_tier_key a = Some tk).
    { apply current_tier_key_nth. rewrite <- Hk, <- Hi.
      now apply current_tier_key_nth. }
    destruct Ho as (_ & H2 & _).
    assert (Hin : In tk (tier_keys a)).
    { apply current_tier_key_nth in Ht0. eapply nth_error_In; eauto. }
    destruct (H2 tk Hin) as [Hmem Hne].
    now apply (complete_current_tier_ok a a' tk E Ht0 Hne).
  - intros [] a r a' [Ho Hc] E. eapply ordered_next_tier; eauto.
  - intros e a [Ho _]. exact Ho.
Qed.

Lemma advance_to_next_ordered : keeps ordered advance_to_next.
Proof.
  pose proof complete_then_next_ordered as Hcn.
  unfold advance_to_next.
  keeps_step. keeps_step.
  destruct (no_key x); [keeps_step|].
  keeps_step. keeps_step.
  destruct x0.
  - keeps_step. keeps_step. keeps_step. keeps_step.
    destruct (negb (is_empty x0) && (x1 + 1 <? length x0)).
    + apply keeps_modify. intros a. now apply ordered_position_only.
    + keeps_step.
      { apply keeps_modify. intros a Ho.
        apply (ordered_position_only _ (fun a => set_q_idx 0 (set_phase category a)));
          auto. }
      keeps_step. keeps_step.
      destruct (is_empty x3); [exact Hcn | keeps_step].
  - keeps_step. keeps_step. keeps_step. keeps_step.
    destruct (negb (is_empty x0) && (x1 + 1 <? length x0)).
    + apply keeps_modify. intros a. now apply ordered_position_only.
    + exact Hcn.
Qed.

(** *** The tier keys of a general set *)

Lemma insert_by_key_perm (k : Z) (x : string) (l : list (Z * string)) :
  Permutation (insert_by_key k x l) ((k, x) :: l).
Proof.
  induction l as [|[k' y] r IH]; simpl; [reflexivity|].
  destruct (k <=? k')%Z; [reflexivity|].
  rewrite IH. apply perm_swap.
Qed.

Lemma sort_by_key_perm (l : list (Z * string)) :
  Permutation (sort_by_key l) (map snd l).
Proof.
  unfold sort_by_key. apply Permutation_map.
  induction l as [|[k x] r IH]; simpl; [reflexivity|].
  rewrite insert_by_key_perm. now constructor.
Qed.

Lemma with_ranks_keys (l : list string) :
  forall ranked, with_ranks l = Ok ranked -> map snd ranked = l.
Proof.
  induction l as [|x r IH]; intros ranked E; simpl in E.
  - now inversion E.
  - destruct (tier_rank x); [|discriminate].
    destruct (with_ranks r) as [r'|]; [|discriminate].
    inversion E; subst. simpl. now rewrite IH.
Qed.

Lemma extract_tier_keys_perm (g : dict) (keys : list string) :
  extract_tier_keys g = Ok keys ->
  Permutation keys (filter (Str.startswith "tier") (dict_keys g)).
Proof.
  unfold extract_tier_keys. destruct g as [|b r]; cbn [is_empty negb].
  - intros H. inversion H; subst. reflexivity.
  - destruct (with_ranks _) as [ranked|] eqn:E; [|discriminate].
    intros H. inversion H; subst.
    rewrite sort_by_key_perm. now rewrite (with_ranks_keys _ _ E).
Qed.

Lemma extract_tier_keys_wf (g : dict) (keys : list string) :
  extract_tier_keys g = Ok keys ->
  NoDup keys
  /\ forall k, In k keys -> dict_mem g k = true /\ k <> "".
Proof.
  intros E. apply extract_tier_keys_perm in E. split.
  - eapply Permutation_NoDup; [symmetry; exact E|].
    apply NoDup_filter, dict_keys_nodup.
  - intros k Hin. eapply Permutation_in in Hin; [|exact E].
    apply filter_In in Hin. destruct Hin as [Hin Hp]. split.
    + apply dict_keys_in in Hin. unfold dict_mem.
      destruct (dict_get g k); congruence.
    + intros ->. cbv in Hp. discriminate.
Qed.

Lemma first_open_nth (g : dict) keys pre k :
  first_open g keys pre k ->
  nth_error keys (length pre) = Some k
  /\ forall i k', i < length pre -> nth_error keys i = Some k' ->
                  completed_in g k'.
Proof.
  induction 1 as [k rest H|k0 rest pre k H0 H [IH1 IH2]]; simpl.
  - split; [reflexivity | intros; lia].
  - split; [exact IH1|]. intros [|i] k' Hi Hn; simpl in Hn.
    + now inversion Hn; subst.
    + apply (IH2 i); [lia | exact Hn].
Qed.

(** The agent a constructor returns has its tiers in order. *)
Lemma new_agent_ordered (s : store) (a : agent) :
  new_agent s = Ok a -> ordered a.
Proof.
  intros E.
  destruct (new_agent_spec _ _ E)
    as (g & c & p & keys & El & _ & _ & Hk & _ & _ & H).
  apply loaded_keys, extract_tier_keys_wf in El. destruct El as [Hnd Hin].
  unfold ordered. rewrite Hk.
  destruct H as [(Hg & Hi & Hall)|(pre & k & Hf & Hi & [[Hs Hg]|(tier & Hgk & Hs & Hg)])];
    rewrite Hg, Hi.
  - split; [exact Hnd|]. split; [exact Hin|].
    intros i k _ Hn. rewrite Forall_forall in Hall.
    eapply Hall, nth_error_In, Hn.
  - split; [exact Hnd|]. split; [exact Hin|].
    apply (first_open_nth _ _ _ _ Hf).
  - split; [exact Hnd|]. split.
    + intros k' Hk'. destruct (Hin k' Hk') as [Hm Hne]. split; [|exact Hne].
      now apply dict_mem_set.
    + intros i k' Hlt Hn.
      pose proof (first_open_nth _ _ _ _ (first_open_in_process _ _ _ _ _ Hf Hgk))
        as [_ Hc].
      now apply (Hc i).
Qed.

(** *** Recording an answer leaves statuses and position alone *)

Lemma update_profile_structure_only_profile (field answer : value) (a : agent) :
  exists d, snd (update_profile_structure field answer a) = set_profile d a.
Proof.
  unfold update_profile_structure.
  destruct field;
    try (exists (profile_structure a); destruct a; reflexivity).
  destruct (negb (truthy (VStr s))).
  - exists (profile_structure a). destruct a; reflexivity.
  - eexists. reflexivity.
Qed.

Lemma recorded_view (ph : phase) (tk : string) (marked : option (list value))
    (field answer : value) (a : agent) (tier : dict) :
  dict_get (dataset_of a ph) tk = Some (VDict tier) ->
  let a1 := recorded ph tk marked field answer a in
  position a1 = position a
  /\ tier_keys a1 = tier_keys a
  /\ (forall p k, tier_status (dataset_of a1 p) k = tier_status (dataset_of a p) k)
  /\ (forall p k, dict_mem (dataset_of a1 p) k = dict_mem (dataset_of a p) k)
  /\ (forall p, p <> ph -> dataset_of a1 p = dataset_of a p).
Proof.
  intros Hg. unfold recorded.
  set (a0 := match marked with
             | Some qs' => set_dataset ph (store_questions (dataset_of a ph) tk qs') a
             | None => a
             end).
  assert (H0 : position a0 = position a
               /\ tier_keys a0 = tier_keys a
               /\ (forall p k, tier_status (dataset_of a0 p) k
                               = tier_status (dataset_of a p) k)
               /\ (forall p k, dict_mem (dataset_of a0 p) k
                               = dict_mem (dataset_of a p) k)
               /\ (forall p, p <> ph -> dataset_of a0 p = dataset_of a p)).
  { subst a0. destruct marked as [qs'|]; [|repeat split; auto].
    unfold store_questions. rewrite Hg.
    split; [destruct ph; reflexivity|]. split; [destruct ph; reflexivity|].
    split; [|split].
    - intros p k. rewrite dataset_of_set_dataset.
      destruct ph, p; auto; now rewrite (tier_status_questions_update _ _ _ Hg).
    - intros p k. rewrite dataset_of_set_dataset.
      destruct ph, p; auto; now rewrite (dict_mem_tier_update _ _ _ Hg).
    - intros p Hp. rewrite dataset_of_set_dataset.
      destruct ph, p; auto; congruence. }
  cbv zeta. destruct (truthy field); [|exact H0].
  destruct (update_profile_structure_only_profile field answer a0) as (d & ->).
  destruct H0 as (H1 & H2 & H3 & H4 & H5).
  repeat split; auto; intros p; destruct p; auto.
Qed.

Lemma recorded_ordered (ph : phase) (tk : string) (marked : option (list value))
    (field answer : value) (a : agent) (tier : dict) :
  dict_get (dataset_of a ph) tk = Some (VDict tier) ->
  ordered a ->
  ordered (recorded ph tk marked field answer a).
Proof.
  intros Hg (H1 & H2 & H3).
  destruct (recorded_view ph tk marked field answer a tier Hg)
    as (Hp & Hk & Hs & Hm & _).
  specialize (Hs general). specialize (Hm general). cbn [dataset_of] in Hs, Hm.
  unfold position in Hp. inversion Hp as [[Hi Hph Hq]].
  unfold ordered, completed_in. rewrite Hk, Hi. split; [exact H1|]. split.
  - intros k Hin. rewrite Hm. auto.
  - intros i k Hlt Hn. rewrite Hs. now apply (H3 i k).
Qed.

(** [submit_answer] keeps the tiers in order, whatever its outcome. *)
Lemma submit_answer_ordered (answer : value) : keeps ordered (submit_answer answer).
Proof.
  intros a r a' Ho E. apply submit_answer_cases in E.
  destruct E as [[-> _]|(tk & tier & qs & q & marked & r0 & _ & _ & Hg & _ & _
                         & _ & _ & _ & Ha & _)]; [exact Ho|].
  eapply advance_to_next_ordered; [|exact Ha].
  eapply recorded_ordered; eauto.
Qed.

Lemma reachable_ordered (a : agent) : reachable a -> ordered a.
Proof.
  induction 1 as [s a E|a answer r a' _ IH E].
  - eapply new_agent_ordered; eauto.
  - eapply submit_answer_ordered; eauto.
Qed.

(** C5: in every reachable state in which the current tier is the one at
    index [t + 1] of [tier_keys], the status of the tier at index [t] is
    [completed] in the general set. *)
Theorem previous_tier_is_completed (a : agent) (t : nat) (current previous : string) :
  reachable a ->
  current_tier_idx a = t + 1 ->
  get_current_tier_key a = Some current ->
  nth_error (tier_keys a) t = Some previous ->
  tier_status (general_questions a) previous = Some (VStr "completed").
Proof.
  intros Hr Hi _ Hn.
  destruct (reachable_ordered _ Hr) as (_ & _ & H3).
  apply (H3 t previous); [lia | exact Hn].
Qed.

Lemma previous_tier_is_completed_witness :
  let a0 := mkAgent 0 general 0 ["tier1"; "tier2"] Scenario.general_set [] [] in
  let a1 := snd (submit_answer (VStr "Alice") a0) in
  current_tier_idx a1 = 0 + 1
  /\ tier_status (general_questions a1) "tier1" = Some (VStr "completed").
Proof.
  intros a0 a1. split; [reflexivity|].
  apply (previous_tier_is_completed a1 0 "tier2" "tier1");
    try reflexivity.
  apply (reach_submit a0 (VStr "Alice") (Ok true) a1);
    [apply (reach_new Scenario.documents a0)|]; reflexivity.
Defined.

(** ** A tier without category questions *)

(** [advance_to_next] in the general phase when no further pending general
    question is at the next index: the phase is set to [category], and the
    tier is completed at once unless the category set has a pending
    question for it. *)
Lemma advance_to_next_general_last (a : agent) (tk : string)
    (pending : list value) :
  get_current_tier_key a = Some tk ->
  tk <> "" ->
  current_phase a = general ->
  get_pending_questions a (general_questions a) (Some tk) = Ok pending ->
  length pending <= current_q_idx a + 1 ->
  let a3 := set_q_idx 0 (set_phase category a) in
  advance_to_next a
  = match get_pending_questions a (category_questions a) (Some tk) with
    | Ok cat_pending =>
        if is_empty cat_pending
        then bind complete_current_tier (fun _ => advance_to_next_tier) a3
        else (Ok tt, a3)
    | Raise e => (Raise e, a3)
    end.
Proof.
  intros Ht Hne Hph Hp Hlen a3. unfold advance_to_next. run.
  rewrite Ht. cbn [no_key]. apply String.eqb_neq in Hne. rewrite Hne.
  rewrite Hph, Hp.
  assert (Hc : negb (is_empty pending) && (current_q_idx a + 1 <? length pending)
               = false).
  { apply andb_false_iff. right. apply Nat.ltb_ge. exact Hlen. }
  rewrite Hc.
  change (get_pending_questions (set_q_idx 0 (set_phase category a))
            (category_questions (set_q_idx 0 (set_phase category a))) (Some tk))
    with (get_pending_questions a (category_questions a) (Some tk)).
  fold a3.
  destruct (get_pending_questions a (category_questions a) (Some tk)) as [cp|e];
    [|reflexivity].
  destruct (is_empty cp); reflexivity.
Qed.

(** The pending questions of a set whose tier has none flagged pending:
    the method returns none, unless it raises. *)
Lemma get_pending_none (a : agent) (d : dict) (tk : string) (pending : list value) :
  filter is_pending (questions_of d tk) = [] ->
  get_pending_questions a d (Some tk) = Ok pending ->
  pending = [].
Proof.
  intros Hf E.
  destruct pending as [|q r]; [reflexivity|]. exfalso.
  assert (Hne : q :: r <> []) by discriminate.
  destruct (get_pending_nonempty _ _ _ _ E Hne)
    as (k & tier & qs & Hk & _ & Hg & Hqs & Hp).
  inversion Hk; subst k.
  unfold questions_of in Hf. rewrite Hg, Hqs in Hf. congruence.
Qed.

(** * The question generator ([generate_question.py])

    The functions that build the question documents the agent reads: the
    dotted paths of the profile's concepts, the description at a path, the
    enrichment of the ranked questions and their grouping into tiers.  The
    calls to the language model produce the list of ranked questions, which
    is an input here. *)

Module Generator.

(** ['description' in value or 'values' in value or 'value' in value]. *)
Definition is_concept (d : dict) : bool :=
  dict_mem d "description" || dict_mem d "values" || dict_mem d "value".

(** [for key, value in d.items()], collecting the lists [f key value]: each
    key once, at its first binding, keys in [seen] left out. *)
Fixpoint items_flat_map (f : string -> value -> list string)
    (seen : list string) (d : dict) {struct d} : list string :=
  match d with
  | [] => []
  | (k, v) :: r =>
      (if str_mem k seen then [] else f k v) ++ items_flat_map f (k :: seen) r
  end.

(** [f"{parent_key}{sep}{key}" if parent_key else key]. *)
Definition new_key (sep parent key : string) : string :=
  if String.eqb parent "" then key else parent ++ sep ++ key.

(** One turn of the loop of [get_concept_paths] for the entry
    [key: value]; the recursive call on [{child_key: child_val}] is the turn
    for that entry under the new parent key. *)
Fixpoint concept_paths_entry (sep parent key : string) (value : value)
    {struct value} : list string :=
  match value with
  | VDict d =>
      if is_concept d then [new_key sep parent key]
      else
        items_flat_map
          (fun child_key child_val =>
             match child_val with
             | VDict _ =>
                 concept_paths_entry sep (new_key sep parent key)
                                     child_key child_val
             | _ => []
             end) [] d
  | _ => []
  end.

(** [get_concept_paths(data, parent_key, sep)]. *)
Definition get_concept_paths (data : dict) (parent_key sep : string)
  : list string :=
  items_flat_map (concept_paths_entry sep parent_key) [] data.

(** The loop of [get_description_for_path]:
    [node = node.get(key, {}) if isinstance(node, dict) else {}]. *)
Fixpoint walk (node : value) (parts : list string) : value :=
  match parts with
  | [] => node
  | key :: rest =>
      walk (match node with
            | VDict d => dict_get_default d key (VDict [])
            | _ => VDict []
            end) rest
  end.

(** [get_description_for_path(root, dotted_path)]. *)
Definition get_description_for_path (root : value) (dotted_path : string)
  : value :=
  let parts := if String.eqb dotted_path "" then [] else Str.split_dot dotted_path in
  match walk root parts with
  | VDict d => dict_get_default d "description" (VStr "")
  | _ => VStr ""
  end.

(** [full.split('.', 1)]: the text before the first dot and, when there is
    a dot, the text after it. *)
Fixpoint split_first_dot (s : string) : string * option string :=
  match s with
  | EmptyString => (EmptyString, None)
  | String c r =>
      if Ascii.eqb c "."%char then (EmptyString, Some r)
      else let (a, b) := split_first_dot r in (String c a, b)
  end.

(** The body of the loop of [enrich_questions] for one question. *)
Definition enrich_question (schema : dict) (q : value) : res value :=
  match q with
  | VDict d =>
      match dict_get d "field" with
      | None => Raise KeyError
      | Some (VStr full) =>
          let (section, rest) := split_first_dot full in
          let subsection := match rest with Some r => r | None => "" end in
          let description :=
            get_description_for_path
              (dict_get_default schema section (VDict [])) subsection in
          Ok (VDict
                (dict_set
                   (dict_set
                      (dict_set
                         (dict_set d "section" (VStr section))
                         "subsection" (VStr subsection))
                      "description" description)
                   "qest" (VStr "pending")))
      | Some _ => Raise AttributeError
      end
  | _ => Raise TypeError
  end.

(** [enrich_questions(flat_questions, schema)]. *)
Fixpoint enrich_questions (flat_questions : list value) (schema : dict)
  : res (list value) :=
  match flat_questions with
  | [] => Ok []
  | q :: r =>
      let? q' := enrich_question schema q in
      let? r' := enrich_questions r schema in
      Ok (q' :: r')
  end.

(** A value that can be the key of a dictionary. *)
Definition hashable (v : value) : bool :=
  match v with
  | VList _ | VDict _ => false
  | _ => true
  end.

(** [grouped[q['tier']]]: the label under which a question is grouped. *)
Definition tier_label (q : value) : res value :=
  match q with
  | VDict d =>
      match dict_get d "tier" with
      | Some v => if hashable v then Ok v else Raise TypeError
      | None => Raise KeyError
      end
  | _ => Raise TypeError
  end.

(** The loop filling [grouped]: it fails at the first question without a
    usable label. *)
Fixpoint check_labels (flat_questions : list value) : res unit :=
  match flat_questions with
  | [] => Ok tt
  | q :: r => let? _ := tier_label q in check_labels r
  end.

Definition has_label (label : string) (q : value) : bool :=
  match tier_label q with
  | Ok v => py_eq v (VStr label)
  | Raise _ => false
  end.

(** [grouped.get(label, [])]. *)
Definition grouped (flat_questions : list value) (label : string) : list value :=
  filter (has_label label) flat_questions.

(** [wrap_questions_by_tier(flat_questions, status)]. *)
Definition wrap_questions_by_tier (flat_questions : list value)
    (status : string) : res dict :=
  let? _ := check_labels flat_questions in
  Ok [("tier1", VDict [("status", VStr status);
                       ("questions", VList (grouped flat_questions "Tier 1"))]);
      ("tier2", VDict [("status", VStr status);
                       ("questions", VList (grouped flat_questions "Tier 2"))]);
      ("tier3", VDict [("status", VStr status);
                       ("questions", VList (grouped flat_questions "Tier 3"))])].

End Generator.

(** ** Facts about the generator *)

Section GeneratorFacts.

Import Generator.

Lemma walk_empty (parts : list string) : walk (VDict []) parts = VDict [].
Proof. induction parts as [|k r IH]; simpl; auto. Qed.

Lemma walk_node_at (parts : list string) :
  forall root,
    walk root parts
    = match node_at parts root with
      | Some v => v
      | None => VDict []
      end.
Proof.
  induction parts as [|k r IH]; intros root; simpl; [reflexivity|].
  destruct root; try apply walk_empty.
  unfold dict_get_default.
  destruct (dict_get d k) as [child|]; [apply IH | apply walk_empty].
Qed.

(** The description lookup never fails: it gives the [description] of the
    node the path leads to when that node is a mapping, and the empty string
    in every other case (a key is missing, the walk meets a value that is
    not a mapping, or the node has no description); the empty path stands
    for the root. *)
Theorem description_lookup_total (root : value) (dotted_path : string) :
  get_description_for_path root dotted_path
  = match node_at (if String.eqb dotted_path "" then []
                   else Str.split_dot dotted_path) root with
    | Some (VDict d) =>
        match dict_get d "description" with
        | Some text => text
        | None => VStr ""
        end
    | _ => VStr ""
    end.
Proof.
  unfold get_description_for_path. rewrite walk_node_at.
  destruct (node_at _ root) as [[]|]; reflexivity.
Qed.

(** The bindings [items_flat_map] visits are the first bindings of the
    dictionary. *)
Lemma items_flat_map_in (f : string -> value -> list string) (d : dict)
    (p : string) :
  In p (items_flat_map f [] d) ->
  exists k v, dict_get d k = Some v /\ In (k, v) d /\ In p (f k v).
Proof.
  enough (H : forall suf pre seen,
             (forall k, In k seen <-> In k (map fst pre)) ->
             In p (items_flat_map f seen suf) ->
             exists k v, dict_get (pre ++ suf) k = Some v
                         /\ In (k, v) suf /\ In p (f k v))
    by (apply (H d [] []); simpl; tauto).
  induction suf as [|[k v] r IH]; intros pre seen Hs Hin; simpl in Hin.
  - contradiction.
  - apply in_app_or in Hin. destruct Hin as [Hin|Hin].
    + destruct (str_mem k seen) eqn:Em; [contradiction|].
      exists k, v. split; [|split; [now left | exact Hin]].
      assert (Hk : ~ In k (map fst pre)).
      { intros H. apply Hs, str_mem_in in H. congruence. }
      clear - Hk. induction pre as [|[k' v'] pre IH]; simpl.
      * now rewrite String.eqb_refl.
      * simpl in Hk. destruct (String.eqb k' k) eqn:E.
        -- apply String.eqb_eq in E. tauto.
        -- apply IH. tauto.
    + destruct (IH (pre ++ [(k, v)]) (k :: seen)) as (k' & v' & H1 & H2 & H3).
      * intros k'. rewrite map_app, in_app_iff. simpl.
        rewrite (Hs k'). tauto.
      * exact Hin.
      * exists k', v'. rewrite <- app_assoc in H1. simpl in H1.
        split; [exact H1|]. split; [now right | exact H3].
Qed.

(** The path string of a route of keys below a parent key. *)
Definition route_string (parent : string) (route : list string) : string :=
  fold_left (new_key ".") route parent.

Lemma concept_paths_entry_route (v : value) :
  forall parent key p,
    In p (concept_paths_entry "." parent key v) ->
    exists route leaf,
      p = route_string (new_key "." parent key) route
      /\ node_at route v = Some (VDict leaf)
      /\ is_concept leaf = true.
Proof.
  induction v using value_rect'; intros parent key p Hin; simpl in Hin;
    try contradiction.
  destruct (is_concept d) eqn:Ec.
  - destruct Hin as [<-|[]]. exists [], d. auto.
  - apply items_flat_map_in in Hin.
    destruct Hin as (k & v & Hg & Hkv & Hin).
    destruct v as [| | | | |d']; try contradiction.
    rewrite Forall_forall in H. specialize (H (k, VDict d') Hkv). cbn [snd] in H.
    destruct (H _ _ _ Hin) as (route & leaf & -> & Hn & Hc).
    exists (k :: route), leaf. split; [reflexivity|]. split; [|exact Hc].
    simpl. rewrite Hg. exact Hn.
Qed.

Lemma get_concept_paths_route (data : dict) (parent p : string) :
  In p (get_concept_paths data parent ".") ->
  exists key route leaf,
    p = route_string parent (key :: route)
    /\ node_at (key :: route) (VDict data) = Some (VDict leaf)
    /\ is_concept leaf = true.
Proof.
  unfold get_concept_paths. intros Hin.
  apply items_flat_map_in in Hin.
  destruct Hin as (k & v & Hg & _ & Hin).
  apply concept_paths_entry_route in Hin.
  destruct Hin as (route & leaf & -> & Hn & Hc).
  exists k, route, leaf. split; [reflexivity|]. split; [|exact Hc].
  simpl. rewrite Hg. exact Hn.
Qed.

End GeneratorFacts.

(** *** Keys that can be addressed by a dotted path *)

(** No dot occurs in [s]. *)
Fixpoint dot_free (s : string) : bool :=
  match s with
  | EmptyString => true
  | String c r => negb (Ascii.eqb c "."%char) && dot_free r
  end.

(** A key that is one segment of a dotted path: not empty, without dot. *)
Definition plain_key (k : string) : bool := negb (String.eqb k "") && dot_free k.

Fixpoint entries_forall (f : string -> value -> bool) (d : dict) : bool :=
  match d with
  | [] => true
  | (k, v) :: r => f k v && entries_forall f r
  end.

(** Every key of every mapping nested in [v] is a plain key. *)
Fixpoint plain_keys (v : value) : bool :=
  match v with
  | VDict d => entries_forall (fun k child => plain_key k && plain_keys child) d
  | _ => true
  end.

Lemma entries_forall_in (f : string -> value -> bool) (d : dict) k v :
  entries_forall f d = true -> In (k, v) d -> f k v = true.
Proof.
  induction d as [|[k' v'] r IH]; simpl; intros H Hin; [contradiction|].
  apply andb_true_iff in H. destruct H as [H1 H2].
  destruct Hin as [E|Hin]; [now inversion E; subst | auto].
Qed.

Lemma dict_get_in (d : dict) (k : string) (v : value) :
  dict_get d k = Some v -> In (k, v) d.
Proof.
  induction d as [|[k' v'] r IH]; simpl; [discriminate|].
  destruct (String.eqb k' k) eqn:E.
  - apply String.eqb_eq in E. intros H. inversion H; subst. now left.
  - intros H. right. auto.
Qed.

Lemma plain_keys_route (route : list string) :
  forall v x,
    plain_keys v = true ->
    node_at route v = Some x ->
    Forall (fun k => plain_key k = true) route /\ plain_keys x = true.
Proof.
  induction route as [|k r IH]; intros v x Hp Hn; simpl in Hn.
  - inversion Hn; subst. auto.
  - destruct v; try discriminate.
    destruct (dict_get d k) as [child|] eqn:Eg; [|discriminate].
    simpl in Hp.
    pose proof (entries_forall_in _ _ _ _ Hp (dict_get_in _ _ _ Eg)) as Hk.
    apply andb_true_iff in Hk. destruct Hk as [Hk Hc].
    destruct (IH _ _ Hc Hn) as [Hr Hx]. auto.
Qed.

Lemma split_dot_dot_free (k : string) :
  dot_free k = true -> Str.split_dot k = [k].
Proof.
  induction k as [|c r IH]; simpl; [reflexivity|].
  intros H. apply andb_true_iff in H. destruct H as [Hc Hr].
  destruct (Ascii.eqb c "."); [discriminate|].
  now rewrite (IH Hr).
Qed.

Lemma split_dot_app (a b : string) :
  Str.split_dot (a ++ "." ++ b) = Str.split_dot a ++ Str.split_dot b.
Proof.
  induction a as [|c r IH]; simpl; [reflexivity|].
  destruct (Ascii.eqb c "."); simpl in *; rewrite IH; [reflexivity|].
  pose proof (split_dot_not_nil r) as Hne.
  destruct (Str.split_dot r); [contradiction | reflexivity].
Qed.

Lemma new_key_not_empty (parent key : string) :
  parent <> "" ->
  Generator.new_key "." parent key = (parent ++ "." ++ key)%string.
Proof.
  intros H. unfold Generator.new_key.
  apply String.eqb_neq in H. now rewrite H.
Qed.

Lemma append_not_empty (a b : string) : a <> "" -> (a ++ b)%string <> "".
Proof. destruct a; [contradiction | discriminate]. Qed.

Lemma route_string_split (route : list string) :
  forall base,
    base <> "" ->
    Forall (fun k => plain_key k = true) route ->
    Str.split_dot (route_string base route) = Str.split_dot base ++ route.
Proof.
  induction route as [|k r IH]; intros base Hb Hr; simpl.
  - now rewrite app_nil_r.
  - inversion Hr as [|? ? Hk Hr']; subst.
    apply andb_true_iff in Hk. destruct Hk as [_ Hk].
    rewrite (new_key_not_empty _ _ Hb).
    rewrite IH; [|now apply append_not_empty|exact Hr'].
    rewrite split_dot_app, (split_dot_dot_free _ Hk), <- app_assoc.
    reflexivity.
Qed.

Lemma route_string_top (key : string) (route : list string) :
  Forall (fun k => plain_key k = true) (key :: route) ->
  Str.split_dot (route_string "" (key :: route)) = key :: route.
Proof.
  intros H. inversion H as [|? ? Hk Hr]; subst.
  apply andb_true_iff in Hk. destruct Hk as [Hne Hk].
  cbn [route_string fold_left]. unfold Generator.new_key at 2. cbn [String.eqb].
  fold (route_string key route).
  rewrite route_string_split; auto.
  - now rewrite (split_dot_dot_free _ Hk).
  - intros ->. discriminate.
Qed.

Lemma node_at_mappings_along (keys : list string) (final_key : string) :
  forall current leaf,
    node_at (keys ++ [final_key]) (VDict current) = Some (VDict leaf) ->
    mappings_along keys final_key current = true.
Proof.
  induction keys as [|k r IH]; intros current leaf H; simpl in *.
  - destruct (dict_get current final_key) as [v|]; [|discriminate].
    now inversion H.
  - destruct (dict_get current k) as [child|]; [|discriminate].
    destruct child; try (destruct r; discriminate).
    eapply IH; eauto.
Qed.

Module GeneratorExample.

(** A profile document with one section of two concepts, one nested. *)
Definition general_profile : dict :=
  [("userContext",
    VDict [("lifeStage", VDict [("description", VStr "Current phase in life");
                                ("value", VStr "")]);
           ("home", VDict [("city", VDict [("description", VStr "City of residence");
                                           ("value", VStr "")])])])].

Definition profile : dict := [("generalprofile", VDict general_profile)].

(** The ranked questions as the language model returns them. *)
Definition ranked : list value :=
  [VDict [("field", VStr "generalprofile.userContext.home.city");
          ("question", VStr "Where do you live?");
          ("impactScore", VInt 90); ("tier", VStr "Tier 1")];
   VDict [("field", VStr "generalprofile.userContext.lifeStage");
          ("question", VStr "What stage of life are you in?");
          ("impactScore", VInt 70); ("tier", VStr "Tier 2")];
   VDict [("field", VStr "generalprofile");
          ("question", VStr "Anything else?");
          ("impactScore", VInt 10); ("tier", VStr "Tier 4")]].

End GeneratorExample.

(** Every path [get_concept_paths] returns for a document whose keys are
    plain (non-empty, without dot) is not empty and, split at its dots, leads
    from the root of the document to a mapping that holds a [description],
    [values] or [value] entry. *)
Theorem concept_paths_resolve (data : dict) (p : string) :
  plain_keys (VDict data) = true ->
  In p (Generator.get_concept_paths data "" ".") ->
  p <> ""
  /\ exists leaf,
       node_at (Str.split_dot p) (VDict data) = Some (VDict leaf)
       /\ Generator.is_concept leaf = true.
Proof.
  intros Hp Hin.
  destruct (get_concept_paths_route _ _ _ Hin) as (key & route & leaf & -> & Hn & Hc).
  destruct (plain_keys_route _ _ _ Hp Hn) as [Hr _].
  pose proof (route_string_top _ _ Hr) as Hs.
  split.
  - intros E. rewrite E in Hs. cbn in Hs. inversion Hs; subst.
    inversion Hr as [|? ? Hk _]; subst. discriminate.
  - exists leaf. rewrite Hs. auto.
Qed.

Lemma concept_paths_resolve_witness :
  Generator.get_concept_paths GeneratorExample.general_profile "" "."
  = ["userContext.lifeStage"; "userContext.home.city"]
  /\ "userContext.home.city" <> ""
  /\ exists leaf,
       node_at (Str.split_dot "userContext.home.city")
               (VDict GeneratorExample.general_profile) = Some (VDict leaf)
       /\ Generator.is_concept leaf = true.
Proof.
  split; [reflexivity|].
  apply (concept_paths_resolve GeneratorExample.general_profile
                               "userContext.home.city").
  - reflexivity.
  - right. left. reflexivity.
Defined.

(** The field the generator gives a question, the section key, a dot and a
    concept path of the section, is one [update_profile_structure] writes
    through: on a profile holding that section, with plain keys, the answer
    ends as the [value] of the node at the field's path. *)
Theorem generated_field_is_written (json section_data : dict)
    (section p : string) (answer : value) (a : agent) :
  profile_structure a = json ->
  dict_get json section = Some (VDict section_data) ->
  dot_free section = true ->
  plain_keys (VDict section_data) = true ->
  In p (Generator.get_concept_paths section_data "" ".") ->
  exists a' leaf,
    update_profile_structure (VStr (section ++ "." ++ p)) answer a = (Ok tt, a')
    /\ node_at (section :: Str.split_dot p) (VDict (profile_structure a'))
       = Some (VDict leaf)
    /\ dict_get leaf "value" = Some answer.
Proof.
  intros Hj Hs Hd Hp Hin.
  destruct (concept_paths_resolve _ _ Hp Hin) as (_ & leaf & Hn & _).
  assert (Hne : (section ++ "." ++ p)%string <> "")
    by (destruct section; discriminate).
  rewrite (update_profile_structure_path _ answer a Hne).
  assert (Hsplit : Str.split_dot (section ++ "." ++ p) = section :: Str.split_dot p)
    by (rewrite split_dot_app, (split_dot_dot_free _ Hd); reflexivity).
  assert (Hfull : node_at (Str.split_dot (section ++ "." ++ p)) (VDict json)
                  = Some (VDict leaf))
    by (rewrite Hsplit; simpl; now rewrite Hs).
  rewrite <- split_dot_segments in Hfull.
  apply node_at_mappings_along in Hfull.
  rewrite <- Hj in Hfull.
  destruct (update_path_writes _ _ answer _ Hfull) as (leaf' & H1 & H2).
  rewrite split_dot_segments, Hsplit in H1.
  eexists. exists leaf'. split; [reflexivity|]. split; [|exact H2].
  cbn [profile_structure set_profile]. rewrite Hsplit. exact H1.
Qed.

Lemma generated_field_is_written_witness :
  let a := mkAgent 0 general 0 [] [] [] GeneratorExample.profile in
  exists a' leaf,
    update_profile_structure (VStr "generalprofile.userContext.home.city")
                             (VStr "Lisbon") a = (Ok tt, a')
    /\ node_at ["generalprofile"; "userContext"; "home"; "city"]
               (VDict (profile_structure a')) = Some (VDict leaf)
    /\ dict_get leaf "value" = Some (VStr "Lisbon").
Proof.
  intros a.
  apply (generated_field_is_written
           GeneratorExample.profile GeneratorExample.general_profile
           "generalprofile" "userContext.home.city" (VStr "Lisbon") a);
    try reflexivity.
  right. left. reflexivity.
Defined.
